(** * StorageNet: the chain manager and the mempool

    A shallow embedding of [src/blockchain/chain.py] (class [Blockchain]) and
    [src/blockchain/mempool.py] (class [Mempool]).

    Both classes are imperative: they mutate [self], talk to a SQLite store,
    to the peer-to-peer layer and to the [Consensus] rules, and they use
    exceptions.  Methods are therefore embedded in a state-and-exception
    monad over the pair (object, world); a mutation made before an exception
    is raised stays visible afterwards, as in Python.  Every call that leaves
    the two classes is recorded in a trace, and an oracle on that trace
    decides which calls raise. *)

From Stdlib Require Import ZArith List String Bool Lia QArith Sorted Permutation.
From Stdlib Require Import Floats.SpecFloat.
Import ListNotations.

Local Open Scope string_scope.
Local Open Scope list_scope.
Local Open Scope Z_scope.

Set Implicit Arguments.

(** ** Data model *)

(** Modelled from the spec: class [Transaction] (src/blockchain/transaction.py)
    is not among the sources; the fields are those of the data model.  A
    missing [tx_hash] is the empty string, which Python's [not tx.tx_hash]
    treats like [None]. *)
Record Transaction := mkTransaction {
  sender : string;
  recipient : string;
  amount : Z;
  data : list (string * string);
  timestamp : Z;
  tx_hash : string;
  signature : option string
}.

(** Modelled from the spec: class [Block] (src/blockchain/block.py) is not
    among the sources; the fields are those of the data model, [timestamp],
    [transactions] and [difficulty] with the prefix [b_] that tells them
    from the fields of [Transaction] and of the chain manager. *)
Record Block := mkBlock {
  index : Z;
  b_timestamp : Z;
  b_transactions : list Transaction;
  previous_hash : string;
  b_difficulty : Z;
  nonce : Z;
  hash : string;
  validator : option string;
  block_signature : option string
}.

(** The signing credential handed to [add_block]; the core never looks
    inside it. *)
Inductive PrivateKey := PrivKey (material : string).

(** Exceptions.  [sqlite3.OperationalError] and [RuntimeError] are named by
    the sources; every other exception is an [OtherError].  All of them are
    subclasses of [Exception]. *)
Inductive exn :=
| OperationalError
| RuntimeError
| KeyError
| OtherError (msg : string).

(** Calls that leave the two classes, in the order the sources make them. *)
Inductive event :=
| EvInitDb                                   (* init_db() *)
| EvConnect                                  (* with db_connection() as conn *)
| EvCommit                                   (* conn.commit() *)
| EvDropTables                               (* DROP TABLE IF EXISTS x3 *)
| EvGetBlockCount                            (* BlockRepository.get_block_count() *)
| EvGetBlockByIndex (i : Z)                  (* BlockRepository.get_block_by_index(i) *)
| EvSaveBlock (b : Block)                    (* BlockRepository.save_block(b) *)
| EvSaveTransaction (tx : Transaction) (block_id : Z)
| EvSaveTransactionsBulk (txs : list Transaction) (block_id : Z)
| EvProofOfWork (b : Block)                  (* Consensus.proof_of_work(b) *)
| EvSignBlock (b : Block)                    (* public_key() ... sign_block(key) *)
| EvBroadcast (tx : Transaction)             (* p2p_network.broadcast_transaction(tx) *)
| EvProbeMempoolTable                        (* SELECT name FROM sqlite_master ... *)
| EvSelectMempool                            (* SELECT * FROM mempool *)
| EvInsertMempool (tx : Transaction)         (* INSERT OR IGNORE INTO mempool *)
| EvDeleteMempool (h : string).              (* DELETE FROM mempool WHERE tx_hash = ? *)

(** Modelled from the spec: the SQLite store behind src/utils/database.py and
    src/blockchain/repositories.py, which are not among the sources.  Three
    tables; [None] is a table that does not exist.  Block rows carry the row
    id [save_block] returned, transaction rows the id of their block. *)
Record Store := mkStore {
  blocks_tbl : option (list (Z * Block));
  transactions_tbl : option (list (Z * Transaction));
  mempool_tbl : option (list Transaction)
}.

(** The world outside the object: the store, the calls made so far (oldest
    first) and the reading of [time.time()]. *)
Record World := mkWorld {
  store : Store;
  trace : list event;
  clock : Q
}.

(** What the two classes take from code that is not among the sources. *)
Class Collaborators := {
  (** [Transaction.calculate_hash] *)
  calculate_hash : Transaction -> string;
  (** the header hash a block's [hash] field has to equal *)
  block_hash : Block -> string;
  (** the nonce the proof-of-work search of [Consensus.proof_of_work] stops at *)
  find_nonce : Block -> Z;
  (** [Consensus.is_chain_valid] *)
  is_chain_valid : list Block -> bool;
  (** [Consensus.cumulative_difficulty] *)
  cumulative_difficulty : list Block -> Z;
  (** PEM encoding of the public key of a private key *)
  public_pem : PrivateKey -> string;
  (** signature of a hash under a private key *)
  sign_hash : PrivateKey -> string -> string;
  (** which call raises: the calls made so far, the call being made *)
  fault : list event -> event -> option exn
}.

(** ** The state-and-exception monad *)

Inductive result (A : Type) :=
| Return (a : A)
| Raise (e : exn).
Arguments Return {A} a.
Arguments Raise {A} e.

Definition M (S A : Type) : Type := S -> S * result A.

Definition ret {S A} (a : A) : M S A := fun s => (s, Return a).

Definition raise {S A} (e : exn) : M S A := fun s => (s, Raise e).

Definition bind {S A B} (m : M S A) (k : A -> M S B) : M S B :=
  fun s =>
    match m s with
    | (s1, Return a) => k a s1
    | (s1, Raise e) => (s1, Raise e)
    end.

(** [try: m  except Exception as e: h e] *)
Definition try_except {S A} (m : M S A) (h : exn -> M S A) : M S A :=
  fun s =>
    match m s with
    | (s1, Return a) => (s1, Return a)
    | (s1, Raise e) => h e s1
    end.

Definition get {S} : M S S := fun s => (s, Return s).

Definition modify {S} (f : S -> S) : M S unit := fun s => (f s, Return tt).

Declare Scope monad_scope.
Delimit Scope monad_scope with monad.
Notation "x <- m ;; k" := (bind m (fun x => k))
  (at level 61, m at next level, right associativity) : monad_scope.
Notation "m ;; k" := (bind m (fun _ => k))
  (at level 61, right associativity) : monad_scope.
Local Open Scope monad_scope.

(** [for x in xs: body x] *)
Fixpoint for_each {S A} (xs : list A) (body : A -> M S unit) : M S unit :=
  match xs with
  | [] => ret tt
  | x :: xs' => body x ;; for_each xs' body
  end.

(** An object together with the world it runs in. *)
Record Sys (O : Type) := mkSys {
  self : O;
  world : World
}.

Definition set_self {O} (f : O -> O) (s : Sys O) : Sys O :=
  mkSys (f (self s)) (world s).

Definition set_store {O} (f : Store -> Store) (s : Sys O) : Sys O :=
  mkSys (self s)
        (mkWorld (f (store (world s))) (trace (world s)) (clock (world s))).

Definition log_event {O} (e : event) (s : Sys O) : Sys O :=
  mkSys (self s)
        (mkWorld (store (world s)) (trace (world s) ++ [e]) (clock (world s))).

(** A call to a collaborator: it is recorded, and raises when the oracle
    says so. *)
Definition call {C : Collaborators} {O} (e : event) : M (Sys O) unit :=
  fun s =>
    match fault (trace (world s)) e with
    | Some x => (log_event e s, Raise x)
    | None => (log_event e s, Return tt)
    end.

(** Modelled from the spec: [db_connection] (src/utils/database.py) is not
    among the sources.  It is a scoped transactional unit: what the body
    wrote is kept when the body ends normally and is undone when the body
    raises. *)
Definition with_db {C : Collaborators} {O A} (body : M (Sys O) A) : M (Sys O) A :=
  fun s =>
    match call EvConnect s with
    | (s1, Raise x) => (s1, Raise x)
    | (s1, Return _) =>
        match body s1 with
        | (s2, Return a) => (s2, Return a)
        | (s2, Raise x) => (set_store (fun _ => store (world s1)) s2, Raise x)
        end
    end.

(** ** Python dictionaries and lists *)

(** A [dict] with string keys keeps its entries in insertion order; it is a
    list of entries whose keys are pairwise distinct. *)
Definition dict (V : Type) := list (string * V).

Definition dict_wf {V} (d : dict V) : Prop := NoDup (map fst d).

(** [k in d] *)
Definition dict_mem {V} (k : string) (d : dict V) : bool :=
  existsb (fun p => String.eqb (fst p) k) d.

(** [d[k] = v]: an existing key keeps its place, a new key goes last. *)
Fixpoint dict_set {V} (k : string) (v : V) (d : dict V) : dict V :=
  match d with
  | [] => [(k, v)]
  | (k', v') :: d' =>
      if String.eqb k' k then (k', v) :: d' else (k', v') :: dict_set k v d'
  end.

(** [del d[k]] on a key that is present. *)
Definition dict_del {V} (k : string) (d : dict V) : dict V :=
  filter (fun p => negb (String.eqb (fst p) k)) d.

(** [d.values()] *)
Definition dict_values {V} (d : dict V) : list V := map snd d.

(** [len(d)] *)
Definition len {A} (l : list A) : Z := Z.of_nat (List.length l).

(** [l[:k]]: a negative [k] counts from the end. *)
Definition slice_to {A} (k : Z) (l : list A) : list A :=
  if 0 <=? k then firstn (Z.to_nat k) l
  else firstn (Z.to_nat (Z.max 0 (len l + k))) l.

(** [sorted(l, key=lambda tx: tx.timestamp)]: Python's sort is stable, and
    a stable sort has one result only; this is the insertion sort that
    puts an element before the first later one with a key not below its
    own. *)
Fixpoint insert_by_timestamp (x : Transaction) (l : list Transaction)
  : list Transaction :=
  match l with
  | [] => [x]
  | y :: l' =>
      if timestamp x <=? timestamp y then x :: y :: l'
      else y :: insert_by_timestamp x l'
  end.

Fixpoint sorted_by_timestamp (l : list Transaction) : list Transaction :=
  match l with
  | [] => []
  | x :: l' => insert_by_timestamp x (sorted_by_timestamp l')
  end.

(** [int(x)] on a float: truncation towards zero. *)
Definition int_of (x : Q) : Z := Z.quot (Qnum x) (Zpos (Qden x)).

(** ** Python floats

    A [float] is an IEEE 754 binary64 number: [spec_float], the Standard
    Library's specification of binary floating point, at precision 53 with
    exponents below 1024.  Every operation rounds to the nearest float,
    ties to the even mantissa. *)

Definition float_prec : Z := 53.
Definition float_emax : Z := 1024.

(** [OverflowError: int too large to convert to float] *)
Definition OverflowError : exn := OtherError "int too large to convert to float".

(** an integer as the pair of a mantissa and the exponent 0, not rounded *)
Definition unrounded (k : Z) : spec_float :=
  match k with
  | Z0 => S754_zero false
  | Zpos m => S754_finite false m 0
  | Zneg m => S754_finite true m 0
  end.

(** the float nearest to a rational: the correctly rounded quotient of its
    numerator and denominator *)
Definition float_of_Q (q : Q) : spec_float :=
  SFdiv float_prec float_emax (unrounded (Qnum q)) (unrounded (Zpos (Qden q))).

(** [time.time()]: the reading of the clock as a float, which is the
    reading itself when that is a float already *)
Definition time_time (w : World) : spec_float := float_of_Q (clock w).

(** an int operand of a float operation is converted to the nearest float;
    an int that rounds beyond the largest float raises [OverflowError] *)
Definition float_of_int (k : Z) : result spec_float :=
  match binary_normalize float_prec float_emax k 0 false with
  | S754_infinity _ => Raise OverflowError
  | x => Return x
  end.

(** [x - y] on floats *)
Definition float_sub (x y : spec_float) : spec_float :=
  SFsub float_prec float_emax x y.

(** [x > k] for a float [x] and an int [k]: Python compares the two values
    as they are, the int is not converted *)
Definition float_gt_int (x : spec_float) (k : Z) : bool :=
  match x with
  | S754_nan => false
  | S754_infinity s => negb s
  | S754_zero _ => 0 >? k
  | S754_finite s m e =>
      let n := if s then Zneg m else Zpos m in
      if 0 <=? e then n * 2 ^ e >? k else n >? k * 2 ^ (- e)
  end.

(** ** [class Mempool] (src/blockchain/mempool.py) *)

Module Mempool.

Record t := mk {
  transactions : dict Transaction;
  max_size : Z
}.

Definition set_transactions (f : dict Transaction -> dict Transaction) (m : t) : t :=
  mk (f (transactions m)) (max_size m).

(** Modelled from the spec: the rows of the [mempool] table, written with
    [INSERT OR IGNORE] keyed by [tx_hash] and deleted by [tx_hash]; SQLite
    raises [OperationalError] when the table does not exist. *)
Definition insert_or_ignore {O} (tx : Transaction) : M (Sys O) unit :=
  fun s =>
    match mempool_tbl (store (world s)) with
    | None => (s, Raise OperationalError)
    | Some rows =>
        if existsb (fun r => String.eqb (tx_hash r) (tx_hash tx)) rows
        then (s, Return tt)
        else (set_store (fun st => mkStore (blocks_tbl st) (transactions_tbl st)
                                           (Some (rows ++ [tx]))) s, Return tt)
    end.

Definition delete_row {O} (h : string) : M (Sys O) unit :=
  fun s =>
    match mempool_tbl (store (world s)) with
    | None => (s, Raise OperationalError)
    | Some rows =>
        (set_store (fun st => mkStore (blocks_tbl st) (transactions_tbl st)
                     (Some (filter (fun r => negb (String.eqb (tx_hash r) h)) rows))) s,
         Return tt)
    end.

Section Methods.
Context {C : Collaborators}.

(** [_load_from_db], lines 21-30: the table is probed and, when it is there,
    its rows are selected; the cursor is never read. *)
Definition _load_from_db : M (Sys t) unit :=
  with_db (
    call EvProbeMempoolTable ;;
    s <- get ;;
    match mempool_tbl (store (world s)) with
    | None => ret tt
    | Some _ => call EvSelectMempool
    end).

(** [__init__], lines 11-19.  The attributes are set first, so the object
    has them whether or not the constructor then raises. *)
Definition __init__ (w : World) : Sys t * result unit :=
  try_except _load_from_db
    (fun e => match e with
              | OperationalError => ret tt
              | _ => raise e
              end)
    (mkSys (mk [] 1000) w).

(** the [with db_connection()] block of [add_transaction], lines 56-72 *)
Definition persist (tx : Transaction) : M (Sys t) unit :=
  with_db (
    call (EvInsertMempool tx) ;;
    insert_or_ignore tx ;;
    call EvCommit).

(** [add_transaction], lines 32-78.  [hasattr(self, 'p2p_network')] holds:
    [__init__] sets the attribute and nothing deletes it. *)
Definition add_transaction (tx : Transaction) : M (Sys t) bool :=
  try_except (
    s <- get ;;
    if String.eqb (tx_hash tx) "" || negb (String.eqb (tx_hash tx) (calculate_hash tx))
    then ret false
    else if dict_mem (tx_hash tx) (transactions (self s)) then ret false
    else if len (transactions (self s)) >=? max_size (self s) then ret false
    else
      (if negb (dict_mem (tx_hash tx) (transactions (self s)))
       then call (EvBroadcast tx) else ret tt) ;;
      modify (set_self (set_transactions (dict_set (tx_hash tx) tx))) ;;
      persist tx ;;
      ret true)
    (fun _ => ret false).

(** [get_transactions], lines 80-87. *)
Definition get_transactions (max_count : Z) : M (Sys t) (list Transaction) :=
  s <- get ;;
  let sorted_txs := sorted_by_timestamp (dict_values (transactions (self s))) in
  ret (slice_to max_count sorted_txs).

(** [del self.transactions[tx_hash]] *)
Definition del_transaction (h : string) : M (Sys t) unit :=
  s <- get ;;
  if dict_mem h (transactions (self s))
  then modify (set_self (set_transactions (dict_del h)))
  else raise KeyError.

(** [remove_transactions], lines 89-102. *)
Definition remove_transactions (tx_hashes : list string) : M (Sys t) unit :=
  with_db (
    for_each tx_hashes (fun h =>
      s <- get ;;
      (if dict_mem h (transactions (self s)) then del_transaction h else ret tt) ;;
      call (EvDeleteMempool h) ;;
      delete_row h) ;;
    call EvCommit).

(** [now - tx.timestamp > expiry_seconds], line 109: [now] is a float and
    [tx.timestamp] an int, so the subtraction converts the timestamp to a
    float, which raises [OverflowError] when the timestamp is too large,
    and rounds the difference, and the float it yields is compared with
    the int [expiry_seconds]. *)
Definition is_expired (now : spec_float) (expiry_seconds : Z) (tx : Transaction)
  : result bool :=
  match float_of_int (timestamp tx) with
  | Raise e => Raise e
  | Return ts => Return (float_gt_int (float_sub now ts) expiry_seconds)
  end.

(** the list [expired] of [clear_expired], lines 107-110: the comprehension
    tests the entries in the order of the mapping and stops at the first
    test that raises *)
Fixpoint expired_keys (now : spec_float) (expiry_seconds : Z) (d : dict Transaction)
  : result (list string) :=
  match d with
  | [] => Return []
  | (tx_hash, tx) :: d' =>
      match is_expired now expiry_seconds tx with
      | Raise e => Raise e
      | Return hit =>
          match expired_keys now expiry_seconds d' with
          | Raise e => Raise e
          | Return expired => Return (if hit then tx_hash :: expired else expired)
          end
      end
  end.

(** one turn of the loop of [clear_expired], lines 114-119 *)
Definition expire_step (tx_hash : string) : M (Sys t) unit :=
  del_transaction tx_hash ;;
  call (EvDeleteMempool tx_hash) ;;
  delete_row tx_hash.

(** [clear_expired], lines 104-122. *)
Definition clear_expired (expiry_seconds : Z) : M (Sys t) unit :=
  s <- get ;;
  let now := time_time (world s) in
  match expired_keys now expiry_seconds (transactions (self s)) with
  | Raise e => raise e
  | Return expired =>
      with_db (
        for_each expired expire_step ;;
        call EvCommit)
  end.

End Methods.

(** The invariant of the in-memory mapping. *)
Definition inv (m : t) : Prop :=
  dict_wf (transactions m) /\ len (transactions m) <= max_size m.

End Mempool.

(** ** What [class Blockchain] uses from the rest of the package *)

(** Modelled from the spec: the constructor of [Block]
    (src/blockchain/block.py, not among the sources) yields a built block:
    no nonce or hash yet, no validator, no signature. *)
Definition Block_new (idx ts : Z) (txs : list Transaction) (prev : string) (d : Z)
  : Block :=
  mkBlock idx ts txs prev d 0 "" None None.

(** Modelled from the spec: the constructor of [Transaction]
    (src/blockchain/transaction.py, not among the sources) stamps the
    transaction with the current time and its content hash; it is unsigned. *)
Definition Transaction_new {C : Collaborators} (now : Q) (snd rcp : string)
    (amt : Z) (dat : list (string * string)) : Transaction :=
  let tx := mkTransaction snd rcp amt dat (int_of now) "" None in
  mkTransaction snd rcp amt dat (int_of now) (calculate_hash tx) None.

(** Modelled from the spec: [Consensus.proof_of_work]
    (src/blockchain/consensus.py, not among the sources) returns the block
    with [nonce] and [hash] populated and nothing else changed. *)
Definition proof_of_work {C : Collaborators} (b : Block) : Block :=
  let mined :=
    mkBlock (index b) (b_timestamp b) (b_transactions b) (previous_hash b)
            (b_difficulty b) (find_nonce b) (hash b) (validator b)
            (block_signature b) in
  mkBlock (index b) (b_timestamp b) (b_transactions b) (previous_hash b)
          (b_difficulty b) (find_nonce b) (block_hash mined) (validator b)
          (block_signature b).

(** [new_block.validator = pem] *)
Definition set_validator (pem : string) (b : Block) : Block :=
  mkBlock (index b) (b_timestamp b) (b_transactions b) (previous_hash b)
          (b_difficulty b) (nonce b) (hash b) (Some pem) (block_signature b).

(** Modelled from the spec: [Block.sign_block] (not among the sources) sets
    the signature over [hash] by the validator's private key. *)
Definition sign_block {C : Collaborators} (key : PrivateKey) (b : Block) : Block :=
  mkBlock (index b) (b_timestamp b) (b_transactions b) (previous_hash b)
          (b_difficulty b) (nonce b) (hash b) (validator b)
          (Some (sign_hash key (hash b))).

(** Modelled from the spec: [init_db], [BlockRepository] and
    [TransactionRepository] (src/utils/database.py and
    src/blockchain/repositories.py, not among the sources) over the three
    tables; a statement on a table that does not exist raises
    [OperationalError], as in SQLite. *)
Module Repo.

Definition create_tables (st : Store) : Store :=
  mkStore (Some (match blocks_tbl st with Some r => r | None => [] end))
          (Some (match transactions_tbl st with Some r => r | None => [] end))
          (Some (match mempool_tbl st with Some r => r | None => [] end)).

Definition drop_tables (_ : Store) : Store := mkStore None None None.

Section Ops.
Context {C : Collaborators} {O : Type}.

Definition init_db : M (Sys O) unit :=
  call EvInitDb ;; modify (set_store create_tables).

Definition get_block_count : M (Sys O) Z :=
  call EvGetBlockCount ;;
  s <- get ;;
  match blocks_tbl (store (world s)) with
  | None => raise OperationalError
  | Some rows => ret (len rows)
  end.

Definition get_block_by_index (i : Z) : M (Sys O) (option Block) :=
  call (EvGetBlockByIndex i) ;;
  s <- get ;;
  match blocks_tbl (store (world s)) with
  | None => raise OperationalError
  | Some rows =>
      ret (option_map snd (find (fun r => index (snd r) =? i) rows))
  end.

Definition save_block (b : Block) : M (Sys O) Z :=
  call (EvSaveBlock b) ;;
  s <- get ;;
  match blocks_tbl (store (world s)) with
  | None => raise OperationalError
  | Some rows =>
      let block_id := len rows + 1 in
      modify (set_store (fun st =>
        mkStore (Some (rows ++ [(block_id, b)])) (transactions_tbl st)
                (mempool_tbl st))) ;;
      ret block_id
  end.

Definition save_transactions_bulk (txs : list Transaction) (block_id : Z)
  : M (Sys O) unit :=
  call (EvSaveTransactionsBulk txs block_id) ;;
  s <- get ;;
  match transactions_tbl (store (world s)) with
  | None => raise OperationalError
  | Some rows =>
      modify (set_store (fun st =>
        mkStore (blocks_tbl st)
                (Some (rows ++ map (fun tx => (block_id, tx)) txs))
                (mempool_tbl st)))
  end.

Definition save_transaction (tx : Transaction) (block_id : Z) : M (Sys O) unit :=
  call (EvSaveTransaction tx block_id) ;;
  s <- get ;;
  match transactions_tbl (store (world s)) with
  | None => raise OperationalError
  | Some rows =>
      modify (set_store (fun st =>
        mkStore (blocks_tbl st) (Some (rows ++ [(block_id, tx)]))
                (mempool_tbl st)))
  end.

End Ops.
End Repo.

(** [not l] on a list *)
Definition is_empty {A} (l : list A) : bool :=
  match l with [] => true | _ => false end.

(** ** [class Blockchain] (src/blockchain/chain.py) *)

Module Blockchain.

Record t := mk {
  difficulty : Z;
  chain : list Block
}.

Definition set_chain (f : list Block -> list Block) (bc : t) : t :=
  mk (difficulty bc) (f (chain bc)).

(** the payload of the genesis transaction *)
Definition genesis_data : list (string * string) :=
  [("type", "genesis"); ("message", "Initial block of the chain")].

Section Methods.
Context {C : Collaborators}.

(** [_reset_blockchain], lines 38-49 *)
Definition _reset_blockchain : M (Sys t) unit :=
  with_db (
    call EvDropTables ;;
    modify (set_store Repo.drop_tables) ;;
    call EvCommit) ;;
  Repo.init_db.

(** the transaction and the block [_create_genesis_block] builds, lines
    65-78, before proof-of-work *)
Definition genesis_tx (now : Q) : Transaction :=
  Transaction_new now "0" "0" 0 genesis_data.

Definition genesis_candidate (now : Q) (d : Z) : Block :=
  Block_new 0 0 [genesis_tx now] "0" d.

(** [_create_genesis_block], lines 63-91 *)
Definition _create_genesis_block : M (Sys t) Block :=
  s <- get ;;
  let genesis_tx := genesis_tx (clock (world s)) in
  let genesis_block := genesis_candidate (clock (world s)) (difficulty (self s)) in
  call (EvProofOfWork genesis_block) ;;
  let genesis_block := proof_of_work genesis_block in
  try_except (
    block_id <- Repo.save_block genesis_block ;;
    Repo.save_transaction genesis_tx block_id ;;
    ret genesis_block)
    (fun e => raise e).

(** [_initialize_new_chain], lines 51-61 *)
Definition _initialize_new_chain : M (Sys t) unit :=
  try_except (
    genesis_block <- _create_genesis_block ;;
    modify (set_self (set_chain (fun _ => [genesis_block]))))
    (fun _ => raise RuntimeError).

(** the loop of [load_chain], lines 98-104: [None] is the early
    [return []] on a missing block *)
Fixpoint load_blocks (n : nat) (idx : Z) (chain : list Block)
  : M (Sys t) (option (list Block)) :=
  match n with
  | O => ret (Some chain)
  | S n' =>
      block <- Repo.get_block_by_index idx ;;
      match block with
      | None => ret None
      | Some b => load_blocks n' (idx + 1) (chain ++ [b])
      end
  end.

(** [load_chain], lines 93-112 *)
Definition load_chain : M (Sys t) (list Block) :=
  block_count <- Repo.get_block_count ;;
  loaded <- load_blocks (Z.to_nat block_count) 0 [] ;;
  match loaded with
  | None => ret []
  | Some chain =>
      if is_empty chain || negb (is_chain_valid chain) then ret []
      else ret chain
  end.

(** the body of [__init__] after [self.chain = self.load_chain()], lines
    24-31 *)
Definition init_after_load (loaded : list Block) : M (Sys t) unit :=
  if is_empty loaded then _initialize_new_chain
  else if negb (is_chain_valid loaded)
       then _reset_blockchain ;; _initialize_new_chain
       else ret tt.

(** the [try] block of [__init__], lines 19-31 *)
Definition init_try : M (Sys t) unit :=
  Repo.init_db ;;
  loaded <- load_chain ;;
  modify (set_self (set_chain (fun _ => loaded))) ;;
  init_after_load loaded.

(** the [except Exception] block of [__init__], lines 33-36 *)
Definition init_except : M (Sys t) unit :=
  _reset_blockchain ;; _initialize_new_chain.

(** [__init__], lines 15-36 *)
Definition __init__ (difficulty : Z) (w : World) : Sys t * result unit :=
  try_except init_try (fun _ => init_except) (mkSys (mk difficulty []) w).

(** [get_last_block], lines 158-162 *)
Definition get_last_block (bc : t) : option Block :=
  if is_empty (chain bc) then None else Some (last (chain bc) (Block_new 0 0 [] "" 0)).

(** the block [add_block] builds at lines 126-132 *)
Definition candidate_block (last_block : Block) (now : Q)
    (transactions : list Transaction) (d : Z) : Block :=
  Block_new (index last_block + 1) (int_of now) transactions (hash last_block) d.

(** the two saves of [add_block], lines 147-148 *)
Definition persist_block (new_block : Block) (transactions : list Transaction)
  : M (Sys t) unit :=
  block_id <- Repo.save_block new_block ;;
  Repo.save_transactions_bulk transactions block_id.

(** [add_block], lines 114-156 *)
Definition add_block (transactions : list Transaction)
    (validator_private_key : PrivateKey) : M (Sys t) (option Block) :=
  if is_empty transactions then ret None
  else
    s <- get ;;
    match get_last_block (self s) with
    | None => ret None
    | Some last_block =>
        let new_block :=
          candidate_block last_block (clock (world s)) transactions
                          (difficulty (self s)) in
        call (EvProofOfWork new_block) ;;
        let new_block := proof_of_work new_block in
        let new_block := set_validator (public_pem validator_private_key) new_block in
        call (EvSignBlock new_block) ;;
        let new_block := sign_block validator_private_key new_block in
        try_except (
          persist_block new_block transactions ;;
          modify (set_self (set_chain (fun c => c ++ [new_block]))) ;;
          ret (Some new_block))
          (fun _ => ret None)
    end.



End Methods.
End Blockchain.

(** ** A concrete set of collaborators, to run the model on *)

Module Testbed.

(** Modelled from the spec: the rules of [Consensus]
    (src/blockchain/consensus.py, not among the sources) as section 4.2
    words them, over a given header hash. *)
Section Rules.
Variable header_hash : Block -> string.

(** [verify_block] against a predecessor: the stored hash is the recomputed
    one and [previous_hash] is the predecessor's hash. *)
Definition verify_block (b prev : Block) : bool :=
  String.eqb (hash b) (header_hash b) && String.eqb (previous_hash b) (hash prev).

Fixpoint links_valid (prev : Block) (rest : list Block) : bool :=
  match rest with
  | [] => true
  | b :: rest' =>
      verify_block b prev && (index b =? index prev + 1) && links_valid b rest'
  end.

(** block 0 has [previous_hash == "0"] and [index == 0]; every later block
    verifies against its predecessor and has the next index *)
Definition chain_valid (chain : list Block) : bool :=
  match chain with
  | [] => true
  | b0 :: rest =>
      String.eqb (previous_hash b0) "0" && (index b0 =? 0) && links_valid b0 rest
  end.

(** the sum of [2^difficulty] over the chain *)
Definition chain_weight (chain : list Block) : Z :=
  fold_right (fun b acc => 2 ^ b_difficulty b + acc) 0 chain.

End Rules.

Definition tx_digest (tx : Transaction) : string :=
  "tx(" ++ sender tx ++ ">" ++ recipient tx ++ ")".

Definition header_digest (b : Block) : string :=
  "blk(" ++ previous_hash b ++ "|"
         ++ String.concat "," (map tx_hash (b_transactions b)) ++ ")".

Definition pem_of (key : PrivateKey) : string :=
  match key with PrivKey m => "pub(" ++ m ++ ")" end.

Definition signature_of (key : PrivateKey) (h : string) : string :=
  match key with PrivKey m => "sig(" ++ m ++ "," ++ h ++ ")" end.

(** the collaborators with a given fault oracle *)
Definition collaborators (oracle : list event -> event -> option exn)
  : Collaborators :=
  {| calculate_hash := tx_digest;
     block_hash := header_digest;
     find_nonce := fun _ => 7;
     is_chain_valid := chain_valid header_digest;
     cumulative_difficulty := chain_weight;
     public_pem := pem_of;
     sign_hash := signature_of;
     fault := oracle |}.

(** no call raises *)
Definition reliable : Collaborators := collaborators (fun _ _ => None).

(** the calls selected by [p] raise *)
Definition failing (p : event -> bool) : Collaborators :=
  collaborators (fun _ e => if p e then Some (OtherError "disk I/O error") else None).

Definition is_insert (e : event) : bool :=
  match e with EvInsertMempool _ => true | _ => false end.

Definition is_save_bulk (e : event) : bool :=
  match e with EvSaveTransactionsBulk _ _ => true | _ => false end.

Definition is_block_count (e : event) : bool :=
  match e with EvGetBlockCount => true | _ => false end.

(** a transaction whose stored hash is its content hash *)
Definition make_tx (snd rcp : string) (amt ts : Z) : Transaction :=
  let tx := mkTransaction snd rcp amt [] ts "" None in
  mkTransaction snd rcp amt [] ts (tx_digest tx) None.

Definition tx_a : Transaction := make_tx "alice" "bob" 5 100.
Definition tx_b : Transaction := make_tx "bob" "carol" 2 50.
Definition tx_c : Transaction := make_tx "carol" "dave" 9 200.

(** a store with the three tables, no block, and one pending transaction *)
Definition store_pending : Store := mkStore (Some []) (Some []) (Some [tx_a]).

Definition empty_store : Store := mkStore (Some []) (Some []) (Some []).

Definition world_of (st : Store) (now : Q) : World := mkWorld st [] now.

(** a mempool holding [tx_a], [tx_b], [tx_c] in that order of arrival *)
Definition pool3 : Mempool.t :=
  Mempool.mk [(tx_hash tx_a, tx_a); (tx_hash tx_b, tx_b); (tx_hash tx_c, tx_c)] 1000.

(** a mined genesis block of difficulty [d], and a block on top of it *)
Definition genesis_of (d : Z) : Block :=
  proof_of_work (C := reliable) (Block_new 0 0 [make_tx "0" "0" 0 0] "0" d).

Definition key1 : PrivateKey := PrivKey "k1".

(** the genesis transaction and block of a node started at clock 0 *)
Definition genesis_tx0 : Transaction :=
  Blockchain.genesis_tx (C := reliable) 0.

Definition genesis_at (d : Z) : Block :=
  proof_of_work (C := reliable) (Blockchain.genesis_candidate (C := reliable) 0 d).

(** a full pool of capacity two *)
Definition pool_full : Mempool.t :=
  Mempool.mk [(tx_hash tx_a, tx_a); (tx_hash tx_b, tx_b)] 2.

(** the pool of three at a clock reading at which, with one hour to live,
    [tx_b] alone has expired *)
Definition pool3_sys : Sys Mempool.t :=
  mkSys pool3 (world_of store_pending 3700).

(** a transaction stamped [-2^53], alone in a pool read at half a second
    past the epoch: the exact difference is [2^53 + 1/2], the float
    difference is [2^53] *)
Definition tx_old : Transaction := make_tx "erin" "frank" 1 (- 2 ^ 53).

Definition pool_old_sys : Sys Mempool.t :=
  mkSys (Mempool.mk [(tx_hash tx_old, tx_old)] 1000) (world_of store_pending (1 # 2)).

(** an empty pool *)
Definition empty_pool_sys : Sys Mempool.t :=
  mkSys (Mempool.mk [] 1000) (world_of empty_store 0).

(** a node on a one-block chain of difficulty 1; a peer would hold the
    one-block chain [genesis_of 5] *)
Definition light_node : Sys Blockchain.t :=
  mkSys (Blockchain.mk 1 [genesis_of 1]) (world_of empty_store 0).

(** a store left behind by an earlier run: the only block row has index 5,
    so block 0 is missing; one confirmed and one pending transaction *)
Definition stray_block : Block :=
  mkBlock 5 0 [tx_b] "abc" 4 0 "def" None None.

Definition store_stale : Store :=
  mkStore (Some [(1, stray_block)]) (Some [(1, tx_b)]) (Some [tx_a]).

(** a store whose only block has index 0 and starts no chain: its previous
    hash is not "0", so [chain_valid] rejects the sequence it forms *)
Definition forged_block : Block :=
  mkBlock 0 0 [tx_b] "abc" 4 0 "def" None None.

Definition store_forged : Store :=
  mkStore (Some [(1, forged_block)]) (Some [(1, tx_b)]) (Some [tx_a]).

End Testbed.

(** ** Vocabulary of the statements *)

(** A computation keeps a relation between the state it starts in and the
    state it ends in, whatever its outcome. *)
Definition keeps {S A} (R : S -> S -> Prop) (m : M S A) : Prop :=
  forall s, R s (fst (m s)).

(** the object is the same before and after *)
Definition same_self {O} (s s' : Sys O) : Prop := self s' = self s.

(** the clock reads the same before and after *)
Definition same_clock {O} (s s' : Sys O) : Prop := clock (world s') = clock (world s).

(** nothing but the trace changes *)
Definition same_but_trace {O} (s s' : Sys O) : Prop :=
  self s' = self s
  /\ store (world s') = store (world s)
  /\ clock (world s') = clock (world s).

(** the calls made so far are still there, in the same order *)
Definition trace_grows {O} (s s' : Sys O) : Prop :=
  exists evs, trace (world s') = trace (world s) ++ evs.

(** calls have been made since, and none of them dropped the tables *)
Definition no_reset {O} (s s' : Sys O) : Prop :=
  exists evs, trace (world s') = trace (world s) ++ evs /\ ~ In EvDropTables evs.

(** the mapping afterwards is the mapping before with some entries
    filtered out, and the capacity is the same *)
Definition shrunk (s s' : Sys Mempool.t) : Prop :=
  Mempool.max_size (self s') = Mempool.max_size (self s)
  /\ exists f, Mempool.transactions (self s')
               = filter f (Mempool.transactions (self s)).

(** the test of line 109 has answered [True] for the transaction *)
Definition expired (now : spec_float) (ttl : Z) (tx : Transaction) : bool :=
  match Mempool.is_expired now ttl tx with
  | Return hit => hit
  | Raise _ => false
  end.

(** the keys of the entries for which it has, in the order of the mapping *)
Definition expired_list (now : spec_float) (ttl : Z) (d : dict Transaction)
  : list string :=
  map fst (filter (fun p => expired now ttl (snd p)) d).

(** the same state, read when the clock shows [now] *)
Definition at_clock {O} (now : Q) (s : Sys O) : Sys O :=
  mkSys (self s) (mkWorld (store (world s)) (trace (world s)) now).

(** ascending submission time *)
Definition older_or_same (a b : Transaction) : Prop := timestamp a <= timestamp b.

(** the difficulty and the clock are the same before and after *)
Definition same_params (s s' : Sys Blockchain.t) : Prop :=
  Blockchain.difficulty (self s') = Blockchain.difficulty (self s)
  /\ clock (world s') = clock (world s).

Section Vocabulary.
Context {C : Collaborators}.

(** the block [add_block] hands to the repositories: the candidate, mined,
    with its validator set, signed *)
Definition sealed_block (last_block : Block) (now : Q) (txs : list Transaction)
    (d : Z) (key : PrivateKey) : Block :=
  sign_block key
    (set_validator (public_pem key)
       (proof_of_work (Blockchain.candidate_block last_block now txs d))).

(** the genesis block of a node: the mined candidate of lines 65-81 *)
Definition genesis_block (s : Sys Blockchain.t) : Block :=
  proof_of_work
    (Blockchain.genesis_candidate (clock (world s)) (Blockchain.difficulty (self s))).

End Vocabulary.

(** what the loop of [load_chain] reads from the rows of the [blocks]
    table when no call raises: block 0, block 1, ... up to the number of
    rows, or nothing when one of them is missing *)
Fixpoint read_blocks (rows : list (Z * Block)) (n : nat) (idx : Z)
    (chain : list Block) : option (list Block) :=
  match n with
  | O => Some chain
  | S n' =>
      match option_map snd (find (fun r => index (snd r) =? idx) rows) with
      | None => None
      | Some b => read_blocks rows n' (idx + 1) (chain ++ [b])
      end
  end.

(** the store after a reset and a fresh genesis: the genesis block and its
    transaction, nothing else *)
Definition genesis_store (g : Block) (tx : Transaction) : Store :=
  mkStore (Some [(1, g)]) (Some [(1, tx)]) (Some []).

(** ** Further vocabulary *)

(** every block after the first has the next index and the hash of its
    predecessor as [previous_hash] *)
Fixpoint linked_from (prev : Block) (rest : list Block) : Prop :=
  match rest with
  | [] => True
  | b :: rest' =>
      index b = index prev + 1 /\ previous_hash b = hash prev /\ linked_from b rest'
  end.

Definition linked (chain : list Block) : Prop :=
  match chain with
  | [] => True
  | b :: rest => linked_from b rest
  end.

(** the rows of the [blocks] table are the blocks of the chain, in order,
    and the block at place [i] has index [i] *)
Definition mirrors (rows : list (Z * Block)) (chain : list Block) : Prop :=
  map snd rows = chain
  /\ forall i b, nth_error chain i = Some b -> index b = Z.of_nat i.

(** the keys of a dictionary *)
Definition dict_keys {V} (d : dict V) : list string := map fst d.

(** the entries of a dictionary whose key is not listed *)
Definition without_keys {V} (hs : list string) (d : dict V) : dict V :=
  filter (fun p => negb (existsb (String.eqb (fst p)) hs)) d.

(** the transactions stamped [t], in the order of the list *)
Definition stamped (t : Z) (l : list Transaction) : list Transaction :=
  filter (fun tx => timestamp tx =? t) l.

(** one turn of the loop of [remove_transactions], lines 93-99 *)
Definition remove_step {C : Collaborators} (h : string) : M (Sys Mempool.t) unit :=
  s <- get ;;
  (if dict_mem h (Mempool.transactions (self s))
   then Mempool.del_transaction h else ret tt) ;;
  call (EvDeleteMempool h) ;;
  Mempool.delete_row h.

(** oracles for single failing calls *)
Module Faults.

Definition is_broadcast (e : event) : bool :=
  match e with EvBroadcast _ => true | _ => false end.

Definition is_connect (e : event) : bool :=
  match e with EvConnect => true | _ => false end.

Definition is_proof_of_work (e : event) : bool :=
  match e with EvProofOfWork _ => true | _ => false end.

Definition is_sign (e : event) : bool :=
  match e with EvSignBlock _ => true | _ => false end.

(** the store is locked: connecting raises [OperationalError] *)
Definition locked : Collaborators :=
  Testbed.collaborators
    (fun _ e => if is_connect e then Some OperationalError else None).

(** neither the connection nor the count of the blocks can be had *)
Definition dead_store : Collaborators :=
  Testbed.collaborators
    (fun _ e => if is_connect e || Testbed.is_block_count e
                then Some (OtherError "unable to open database file") else None).

End Faults.

(** further states to run the model on *)
Module Cases.

(** a second transaction stamped like [tx_a] *)
Definition tx_d : Transaction := Testbed.make_tx "dave" "erin" 1 100.

(** a pool in which [tx_a] and [tx_d], in that order of arrival, share a
    timestamp *)
Definition pool_ties : Sys Mempool.t :=
  mkSys (Mempool.mk [(tx_hash Testbed.tx_c, Testbed.tx_c);
                     (tx_hash Testbed.tx_a, Testbed.tx_a);
                     (tx_hash Testbed.tx_b, Testbed.tx_b);
                     (tx_hash tx_d, tx_d)] 1000)
        (Testbed.world_of Testbed.empty_store 0).

(** a node whose store holds the row of its only block *)
Definition synced_node : Sys Blockchain.t :=
  mkSys (Blockchain.mk 1 [Testbed.genesis_of 1])
        (Testbed.world_of
           (mkStore (Some [(1, Testbed.genesis_of 1)]) (Some []) (Some [])) 0).

(** a node that has not loaded anything yet, over the same store *)
Definition cold_node : Sys Blockchain.t :=
  mkSys (Blockchain.mk 1 []) (world synced_node).

End Cases.

(** * Proofs *)

(** ** Reasoning about the monad *)

Ltac step_fault :=
  match goal with
  | |- context [fault ?tr ?e] =>
      let F := fresh "F" in destruct (fault tr e) eqn:F; cbn
  end.

Section Keeps.
Variables (S : Type) (R : S -> S -> Prop).
Hypothesis R_refl : forall s, R s s.
Hypothesis R_trans : forall a b c, R a b -> R b c -> R a c.

Lemma keeps_ret A (a : A) : keeps R (ret a).
Proof. intros s. apply R_refl. Qed.

Lemma keeps_raise A e : keeps R (@raise S A e).
Proof. intros s. apply R_refl. Qed.

Lemma keeps_get : keeps R (@get S).
Proof. intros s. apply R_refl. Qed.

Lemma keeps_modify f : (forall s, R s (f s)) -> keeps R (modify f).
Proof. intros H s. apply H. Qed.

Lemma keeps_bind A B (m : M S A) (k : A -> M S B) :
  keeps R m -> (forall a, keeps R (k a)) -> keeps R (bind m k).
Proof.
  intros Hm Hk s. unfold bind. specialize (Hm s).
  destruct (m s) as [s1 [a|e]]; cbn in *; auto.
  eapply R_trans; [exact Hm | apply Hk].
Qed.

Lemma keeps_try_except A (m : M S A) (h : exn -> M S A) :
  keeps R m -> (forall e, keeps R (h e)) -> keeps R (try_except m h).
Proof.
  intros Hm Hh s. unfold try_except. specialize (Hm s).
  destruct (m s) as [s1 [a|e]]; cbn in *; auto.
  eapply R_trans; [exact Hm | apply Hh].
Qed.

Lemma keeps_for_each A (xs : list A) (body : A -> M S unit) :
  (forall x, keeps R (body x)) -> keeps R (for_each xs body).
Proof.
  intros Hb. induction xs as [|x xs IH]; cbn.
  - apply keeps_ret.
  - apply keeps_bind; auto.
Qed.

Lemma keeps_if A (b : bool) (m1 m2 : M S A) :
  keeps R m1 -> keeps R m2 -> keeps R (if b then m1 else m2).
Proof. destruct b; auto. Qed.

End Keeps.

(** Relations that do not look at the trace or the store survive every
    collaborator call and every transactional block. *)
Section KeepsSys.
Context {C : Collaborators}.
Variables (O : Type) (R : Sys O -> Sys O -> Prop).
Hypothesis R_refl : forall s, R s s.
Hypothesis R_trans : forall a b c, R a b -> R b c -> R a c.
Hypothesis R_log : forall s e, R s (log_event e s).
Hypothesis R_store : forall s f, R s (set_store f s).

Lemma keeps_call e : keeps R (call (O := O) e).
Proof. intros s. unfold call. destruct (fault _ _); cbn; apply R_log. Qed.

Lemma keeps_with_db A (body : M (Sys O) A) :
  keeps R body -> keeps R (with_db body).
Proof.
  intros Hb s. unfold with_db.
  pose proof (keeps_call EvConnect s) as Hc.
  destruct (call EvConnect s) as [s1 [[]|e]]; cbn in *; auto.
  specialize (Hb s1). destruct (body s1) as [s2 [a|e]]; cbn in *.
  - eapply R_trans; eauto.
  - eapply R_trans; [exact Hc|]. eapply R_trans; [exact Hb|]. apply R_store.
Qed.

End KeepsSys.

(** ** Dictionaries, slices and sorting *)

Lemma dict_mem_true_iff V (k : string) (d : dict V) :
  dict_mem k d = true <-> In k (map fst d).
Proof.
  unfold dict_mem. rewrite existsb_exists, in_map_iff. split.
  - intros [p [Hin Heq]]. apply String.eqb_eq in Heq. eauto.
  - intros [p [Heq Hin]]. exists p. split; auto. now apply String.eqb_eq.
Qed.

Lemma dict_mem_false_iff V (k : string) (d : dict V) :
  dict_mem k d = false <-> ~ In k (map fst d).
Proof.
  rewrite <- dict_mem_true_iff. destruct (dict_mem k d); split; congruence.
Qed.

Lemma dict_set_fresh V (k : string) (v : V) (d : dict V) :
  dict_mem k d = false -> dict_set k v d = d ++ [(k, v)].
Proof.
  induction d as [|[k' v'] d IH]; cbn; auto.
  intros H. apply orb_false_iff in H as [H1 H2]. rewrite H1.
  now rewrite IH.
Qed.

Lemma dict_wf_set_fresh V (k : string) (v : V) (d : dict V) :
  dict_wf d -> dict_mem k d = false -> dict_wf (dict_set k v d).
Proof.
  intros Hwf Hk. rewrite dict_set_fresh by assumption.
  unfold dict_wf in *. rewrite map_app. cbn.
  apply dict_mem_false_iff in Hk.
  apply NoDup_app; auto.
  - constructor; [intros [] | constructor].
  - intros x Hx [Hy|[]]. subst. contradiction.
Qed.

Lemma dict_wf_filter V (f : string * V -> bool) (d : dict V) :
  dict_wf d -> dict_wf (filter f d).
Proof.
  unfold dict_wf. induction d as [|p d IH]; cbn; auto.
  intros H. inversion H as [|? ? Hn Hd]; subst.
  destruct (f p); cbn; auto.
  constructor; auto.
  intros Hin. apply Hn. apply in_map_iff in Hin as [q [Hq Hin]].
  apply filter_In in Hin as [Hin _]. apply in_map_iff. eauto.
Qed.

Lemma len_filter_le A (f : A -> bool) (l : list A) : len (filter f l) <= len l.
Proof.
  unfold len. apply inj_le. apply filter_length_le.
Qed.

Lemma len_app_one A (l : list A) (x : A) : len (l ++ [x]) = len l + 1.
Proof. unfold len. rewrite length_app. cbn. lia. Qed.

(** In a dictionary a key determines its entry. *)
Lemma dict_wf_key_inj V (d : dict V) (k : string) (v v' : V) :
  dict_wf d -> In (k, v) d -> In (k, v') d -> v = v'.
Proof.
  unfold dict_wf. induction d as [|[k0 v0] d IH]; cbn; [tauto|].
  intros Hwf H1 H2. inversion Hwf as [|? ? Hn Hd]; subst.
  destruct H1 as [H1|H1], H2 as [H2|H2].
  - congruence.
  - inversion H1; subst. exfalso. apply Hn. apply in_map_iff.
    exists (k, v'). auto.
  - inversion H2; subst. exfalso. apply Hn. apply in_map_iff.
    exists (k, v). auto.
  - eauto.
Qed.

(** Deleting keys one after the other filters them out. *)
Lemma fold_dict_del V (hs : list string) (d : dict V) :
  fold_left (fun acc h => dict_del h acc) hs d
  = filter (fun p => negb (existsb (String.eqb (fst p)) hs)) d.
Proof.
  revert d. induction hs as [|h hs IH]; intros d; cbn.
  - induction d as [|p d IHd]; cbn; congruence.
  - rewrite IH. unfold dict_del.
    induction d as [|p d IHd]; cbn; auto.
    destruct (String.eqb (fst p) h); cbn; auto.
    destruct (existsb (String.eqb (fst p)) hs); cbn; congruence.
Qed.

Lemma insert_by_timestamp_perm x l : Permutation (x :: l) (insert_by_timestamp x l).
Proof.
  induction l as [|y l IH]; cbn; auto.
  destruct (timestamp x <=? timestamp y); auto.
  eapply perm_trans; [apply perm_swap|]. now constructor.
Qed.

Lemma sorted_by_timestamp_perm l : Permutation l (sorted_by_timestamp l).
Proof.
  induction l as [|x l IH]; cbn; auto.
  eapply perm_trans; [|apply insert_by_timestamp_perm]. now constructor.
Qed.

Lemma insert_by_timestamp_sorted x l :
  StronglySorted older_or_same l ->
  StronglySorted older_or_same (insert_by_timestamp x l).
Proof.
  induction 1 as [|y l Hs IH Hall]; cbn.
  - repeat constructor.
  - destruct (Z.leb_spec (timestamp x) (timestamp y)) as [Hle|Hgt].
    + constructor; [now constructor|].
      constructor; auto.
      eapply Forall_impl; [|exact Hall].
      unfold older_or_same. intros; lia.
    + constructor; auto.
      eapply Permutation_Forall; [apply insert_by_timestamp_perm|].
      constructor; auto. unfold older_or_same. lia.
Qed.

Lemma sorted_by_timestamp_sorted l :
  StronglySorted older_or_same (sorted_by_timestamp l).
Proof.
  induction l as [|x l IH]; cbn; [constructor|].
  now apply insert_by_timestamp_sorted.
Qed.

Lemma slice_to_nonneg A (k : Z) (l : list A) :
  0 <= k -> slice_to k l = firstn (Z.to_nat k) l.
Proof.
  intros H. unfold slice_to. destruct (Z.leb_spec 0 k); [reflexivity | lia].
Qed.

Lemma len_firstn_le A (k : Z) (l : list A) :
  0 <= k -> len (firstn (Z.to_nat k) l) <= k.
Proof.
  intros H. unfold len. rewrite length_firstn. lia.
Qed.

(** ** The mempool *)

Lemma filter_all A (l : list A) : filter (fun _ => true) l = l.
Proof. induction l; cbn; congruence. Qed.

Lemma filter_filter A (f g : A -> bool) (l : list A) :
  filter g (filter f l) = filter (fun x => f x && g x) l.
Proof.
  induction l as [|x l IH]; cbn; auto.
  destruct (f x); cbn; [destruct (g x)|]; congruence.
Qed.

Lemma shrunk_refl s : shrunk s s.
Proof. split; auto. exists (fun _ => true). now rewrite filter_all. Qed.

Lemma shrunk_trans a b c : shrunk a b -> shrunk b c -> shrunk a c.
Proof.
  intros [H1 [f Hf]] [H2 [g Hg]]. split; [congruence|].
  exists (fun x => f x && g x). now rewrite Hg, Hf, filter_filter.
Qed.

Lemma shrunk_inv s s' : shrunk s s' -> Mempool.inv (self s) -> Mempool.inv (self s').
Proof.
  intros [Hm [f Hf]] [Hwf Hlen]. unfold Mempool.inv. rewrite Hm, Hf. split.
  - now apply dict_wf_filter.
  - pose proof (len_filter_le f (Mempool.transactions (self s))). lia.
Qed.

Section MempoolFacts.
Context {C : Collaborators}.

Lemma keeps_insert_or_ignore O (R : Sys O -> Sys O -> Prop) tx :
  (forall s, R s s) -> (forall s f, R s (set_store f s)) ->
  keeps R (Mempool.insert_or_ignore (O := O) tx).
Proof.
  intros Hr Hs s. unfold Mempool.insert_or_ignore.
  destruct (mempool_tbl _); cbn; auto.
  destruct (existsb _ _); cbn; auto.
Qed.

Lemma keeps_delete_row O (R : Sys O -> Sys O -> Prop) h :
  (forall s, R s s) -> (forall s f, R s (set_store f s)) ->
  keeps R (Mempool.delete_row (O := O) h).
Proof.
  intros Hr Hs s. unfold Mempool.delete_row.
  destruct (mempool_tbl _); cbn; auto.
Qed.

Lemma shrunk_same_self s s' : self s' = self s -> shrunk s s'.
Proof.
  intros H. unfold shrunk. rewrite H. split; auto.
  exists (fun _ => true). now rewrite filter_all.
Qed.

Lemma shrunk_log s e : shrunk s (log_event e s).
Proof. now apply shrunk_same_self. Qed.

Lemma shrunk_store s f : shrunk s (set_store f s).
Proof. now apply shrunk_same_self. Qed.

Lemma same_self_trans O (a b c : Sys O) : same_self a b -> same_self b c -> same_self a c.
Proof. unfold same_self. congruence. Qed.

Lemma same_clock_trans O (a b c : Sys O) :
  same_clock a b -> same_clock b c -> same_clock a c.
Proof. unfold same_clock. congruence. Qed.

End MempoolFacts.

(** [keeps] goals follow the shape of the code: [side] closes the
    conditions on the relation, [leaf] the steps that touch the object. *)
Ltac keeps_go side leaf :=
  repeat first
    [ side | leaf
    | apply keeps_ret | apply keeps_raise | apply keeps_get
    | apply keeps_with_db | apply keeps_try_except | apply keeps_for_each
    | apply keeps_call | apply keeps_if
    | apply keeps_insert_or_ignore | apply keeps_delete_row
    | match goal with |- keeps _ (match ?x with _ => _ end) => destruct x end
    | apply keeps_bind | apply keeps_modify
    | match goal with |- forall _, _ => intro end ].

Ltac same_self_side :=
  first [ exact (@same_self_trans _) | solve [intros; unfold same_self; cbn; congruence] ].

Ltac same_clock_side :=
  first [ exact (@same_clock_trans _) | solve [intros; unfold same_clock; cbn; congruence] ].

Ltac shrunk_side :=
  first [ exact shrunk_refl | exact shrunk_trans | exact shrunk_log | exact shrunk_store ].

Section MempoolSteps.
Context {C : Collaborators}.

Lemma persist_same_self tx : keeps same_self (Mempool.persist tx).
Proof. unfold Mempool.persist. keeps_go same_self_side fail. Qed.

Lemma del_transaction_shrunk h : keeps shrunk (Mempool.del_transaction h).
Proof.
  intros s. unfold Mempool.del_transaction, bind, get.
  destruct (dict_mem h _); cbn; [|apply shrunk_refl].
  split; cbn; auto. eexists. reflexivity.
Qed.

Lemma remove_transactions_shrunk hs : keeps shrunk (Mempool.remove_transactions hs).
Proof.
  unfold Mempool.remove_transactions.
  keeps_go shrunk_side ltac:(apply del_transaction_shrunk).
Qed.

Lemma clear_expired_shrunk ttl : keeps shrunk (Mempool.clear_expired ttl).
Proof.
  unfold Mempool.clear_expired, Mempool.expire_step.
  keeps_go shrunk_side ltac:(apply del_transaction_shrunk).
Qed.

Lemma clear_expired_same_clock ttl : keeps same_clock (Mempool.clear_expired ttl).
Proof.
  unfold Mempool.clear_expired, Mempool.expire_step, Mempool.del_transaction.
  keeps_go same_clock_side fail.
Qed.

(** What [add_transaction] does to the object: nothing, or the insertion
    of a new key while there is room. *)
Lemma add_transaction_self tx s :
  self (fst (Mempool.add_transaction tx s)) = self s
  \/ (dict_mem (tx_hash tx) (Mempool.transactions (self s)) = false
      /\ len (Mempool.transactions (self s)) < Mempool.max_size (self s)
      /\ self (fst (Mempool.add_transaction tx s))
         = Mempool.set_transactions (dict_set (tx_hash tx) tx) (self s)).
Proof.
  unfold Mempool.add_transaction, try_except, bind, get, call, modify, ret. cbn.
  destruct (_ || _); cbn; auto.
  destruct (dict_mem _ _) eqn:Hmem; cbn; auto.
  destruct (Z.geb_spec (len (Mempool.transactions (self s))) (Mempool.max_size (self s)));
    cbn; auto.
  destruct (fault _ _); cbn; auto.
  right. repeat split; auto.
  match goal with |- context [Mempool.persist tx ?s1] =>
    pose proof (persist_same_self tx s1) as Hp;
    destruct (Mempool.persist tx s1) as [s2 [[]|e]] end;
    cbn in *; unfold same_self in Hp; rewrite Hp; reflexivity.
Qed.

End MempoolSteps.

Section MempoolProperties.
Context {C : Collaborators}.

Lemma mempool_init_self (w : World) :
  self (fst (Mempool.__init__ w)) = Mempool.mk [] 1000
  /\ store (world (fst (Mempool.__init__ w))) = store w.
Proof.
  unfold Mempool.__init__, Mempool._load_from_db, try_except, with_db, bind,
    call, get, ret, raise.
  cbn. step_fault.
  - destruct e; cbn; auto.
  - step_fault.
    + destruct e; cbn; auto.
    + destruct (mempool_tbl (store w)); cbn; auto.
      step_fault; auto. destruct e; cbn; auto.
Qed.

(** C10: for every persisted state of the store, the mapping of a freshly
    constructed [Mempool] is empty and the store is as it was: the load
    step selects the rows of the [mempool] table when the table exists,
    and inserts none of them into the mapping. *)
Theorem mempool_init_starts_empty (w : World) :
  Mempool.transactions (self (fst (Mempool.__init__ w))) = []
  /\ store (world (fst (Mempool.__init__ w))) = store w
  /\ ((forall tr e, fault tr e = None) ->
      forall rows, mempool_tbl (store w) = Some rows ->
      Mempool.__init__ w
      = (mkSys (Mempool.mk [] 1000)
               (mkWorld (store w)
                        (trace w ++ [EvConnect; EvProbeMempoolTable; EvSelectMempool])
                        (clock w)),
         Return tt)).
Proof.
  destruct (mempool_init_self w) as [Hs Hst].
  split; [now rewrite Hs|]. split; [assumption|].
  intros Hok rows Hrows.
  unfold Mempool.__init__, Mempool._load_from_db, try_except, with_db, bind,
    call, get, ret, raise.
  cbn. rewrite !Hok. cbn. rewrite Hrows. rewrite Hok. cbn.
  unfold log_event. cbn. rewrite <- !app_assoc. reflexivity.
Qed.

(** C7: the mapping of a fresh mempool has pairwise distinct keys and at
    most [max_size] entries, and [add_transaction], [remove_transactions]
    and [clear_expired] keep it so, whatever their outcome; at capacity
    [add_transaction] returns [False] and changes nothing, so no entry is
    evicted. *)
Theorem mempool_bounded_unique_keys :
  (forall w, Mempool.inv (self (fst (Mempool.__init__ w))))
  /\ forall s : Sys Mempool.t,
       Mempool.inv (self s) ->
       (forall tx, Mempool.inv (self (fst (Mempool.add_transaction tx s))))
       /\ (forall hs, Mempool.inv (self (fst (Mempool.remove_transactions hs s))))
       /\ (forall ttl, Mempool.inv (self (fst (Mempool.clear_expired ttl s))))
       /\ (forall tx,
             len (Mempool.transactions (self s)) >= Mempool.max_size (self s) ->
             Mempool.add_transaction tx s = (s, Return false)).
Proof.
  split.
  - intros w. destruct (mempool_init_self w) as [Hs _]. rewrite Hs.
    split; cbn; [constructor | lia].
  - intros s Hinv. split; [|split; [|split]].
    + intros tx.
      destruct (add_transaction_self tx s) as [H | (Hfresh & Hroom & H)];
        rewrite H; [exact Hinv|].
      destruct Hinv as [Hwf Hlen]. split; cbn.
      * now apply dict_wf_set_fresh.
      * rewrite dict_set_fresh by assumption. rewrite len_app_one. lia.
    + intros hs.
      eapply shrunk_inv; [apply remove_transactions_shrunk | exact Hinv].
    + intros ttl.
      eapply shrunk_inv; [apply clear_expired_shrunk | exact Hinv].
    + intros tx Hfull.
      unfold Mempool.add_transaction, try_except, bind, get, ret. cbn.
      destruct (_ || _); cbn; auto.
      destruct (dict_mem _ _); cbn; auto.
      destruct (Z.geb_spec (len (Mempool.transactions (self s)))
                           (Mempool.max_size (self s))); cbn; auto.
      lia.
Qed.

(** C8, as amended: for every mempool state and every [max_count >= 0],
    [get_transactions] returns the first [min(max_count, size)]
    transactions of the pool in ascending order of timestamp (the
    transactions left out are not older than any returned one), so at most
    [max_count] of them, and leaves the state unchanged. *)
Theorem get_transactions_oldest_first (max_count : Z) (s : Sys Mempool.t) :
  0 <= max_count ->
  exists txs rest,
    Mempool.get_transactions max_count s = (s, Return txs)
    /\ len txs <= max_count
    /\ len txs = Z.min max_count (len (Mempool.transactions (self s)))
    /\ StronglySorted older_or_same (txs ++ rest)
    /\ Permutation (txs ++ rest) (dict_values (Mempool.transactions (self s))).
Proof.
  intros Hk.
  set (all := sorted_by_timestamp (dict_values (Mempool.transactions (self s)))).
  exists (firstn (Z.to_nat max_count) all), (skipn (Z.to_nat max_count) all).
  assert (Hlen : List.length all = List.length (Mempool.transactions (self s))).
  { unfold all. rewrite <- (Permutation_length (sorted_by_timestamp_perm _)).
    unfold dict_values. apply length_map. }
  split; [|split; [|split; [|split]]].
  - unfold Mempool.get_transactions, bind, get, ret. cbn.
    now rewrite slice_to_nonneg.
  - now apply len_firstn_le.
  - unfold len. rewrite length_firstn, Hlen. lia.
  - rewrite firstn_skipn. apply sorted_by_timestamp_sorted.
  - rewrite firstn_skipn. symmetry. apply sorted_by_timestamp_perm.
Qed.

End MempoolProperties.

(** C8 as stated fails: with three pending transactions and
    [max_count = -1] the slice [sorted_txs[:-1]] holds two transactions. *)
Lemma get_transactions_negative_count :
  Mempool.get_transactions (-1)
    (mkSys Testbed.pool3 (Testbed.world_of Testbed.empty_store 0))
  = (mkSys Testbed.pool3 (Testbed.world_of Testbed.empty_store 0),
     Return [Testbed.tx_b; Testbed.tx_a])
  /\ ~ (len [Testbed.tx_b; Testbed.tx_a] <= -1).
Proof.
  split; [reflexivity | cbn; lia].
Qed.

Lemma get_transactions_oldest_first_witness :
  0 <= 2
  /\ exists txs rest,
       Mempool.get_transactions 2
         (mkSys Testbed.pool3 (Testbed.world_of Testbed.empty_store 0))
       = (mkSys Testbed.pool3 (Testbed.world_of Testbed.empty_store 0), Return txs)
       /\ len txs <= 2
       /\ len txs = Z.min 2 (len (Mempool.transactions Testbed.pool3))
       /\ StronglySorted older_or_same (txs ++ rest)
       /\ Permutation (txs ++ rest) (dict_values (Mempool.transactions Testbed.pool3)).
Proof.
  split; [lia|].
  apply (get_transactions_oldest_first
           (mkSys Testbed.pool3 (Testbed.world_of Testbed.empty_store 0))).
  lia.
Defined.

Lemma pool_full_inv : Mempool.inv Testbed.pool_full.
Proof.
  split; [|cbn; lia].
  unfold dict_wf. cbn. repeat constructor; cbn; intuition discriminate.
Defined.

Lemma mempool_bounded_unique_keys_witness :
  Mempool.inv Testbed.pool_full
  /\ Mempool.inv (self (fst (Mempool.add_transaction (C := Testbed.reliable) Testbed.tx_c
                               (mkSys Testbed.pool_full (Testbed.world_of Testbed.empty_store 0)))))
  /\ Mempool.add_transaction (C := Testbed.reliable) Testbed.tx_c
       (mkSys Testbed.pool_full (Testbed.world_of Testbed.empty_store 0))
     = (mkSys Testbed.pool_full (Testbed.world_of Testbed.empty_store 0), Return false).
Proof.
  split; [exact pool_full_inv|].
  destruct (proj2 (mempool_bounded_unique_keys (C := Testbed.reliable))
              (mkSys Testbed.pool_full (Testbed.world_of Testbed.empty_store 0))
              pool_full_inv) as (Hadd & _ & _ & Hfull).
  split; [apply Hadd|].
  apply Hfull. cbn. lia.
Defined.

Lemma mempool_init_starts_empty_witness :
  Mempool.__init__ (C := Testbed.reliable) (Testbed.world_of Testbed.store_pending 0)
  = (mkSys (Mempool.mk [] 1000)
           (mkWorld Testbed.store_pending
                    [EvConnect; EvProbeMempoolTable; EvSelectMempool] 0),
     Return tt).
Proof.
  destruct (mempool_init_starts_empty (C := Testbed.reliable)
              (Testbed.world_of Testbed.store_pending 0)) as (_ & _ & H).
  apply (H (fun _ _ => eq_refl) [Testbed.tx_a]). reflexivity.
Defined.

(** ** Expiry *)

Section Expiry.
Context {C : Collaborators}.

Lemma for_each_cons S A (x : A) (xs : list A) (body : A -> M S unit) (s : S) :
  for_each (x :: xs) body s
  = match body x s with
    | (s1, Return _) => for_each xs body s1
    | (s1, Raise e) => (s1, Raise e)
    end.
Proof. reflexivity. Qed.

(** The arithmetic of line 109 on a few inputs: an age of an hour exactly
    is not above an hour and an age of a tenth of a second more is; an
    int is converted to the nearest float, ties to even, so that [2^53 + 1]
    becomes [2^53] and [2^53 + 3] becomes [2^53 + 4]; a timestamp of
    [2^1024] cannot be converted; and the difference is rounded, which
    loses the half second of [1/2 + 2^53]. *)
Lemma is_expired_examples :
  let stamped_at := Testbed.make_tx "erin" "frank" 1 in
  Mempool.is_expired (float_of_Q 3700) 3600 (stamped_at 100) = Return false
  /\ Mempool.is_expired (float_of_Q (37001 # 10)) 3600 (stamped_at 100) = Return true
  /\ Mempool.is_expired (float_of_Q 0) (- 2 ^ 53 - 1) (stamped_at (2 ^ 53 + 1))
     = Return true
  /\ Mempool.is_expired (float_of_Q 0) (- 2 ^ 53 - 4) (stamped_at (2 ^ 53 + 3))
     = Return false
  /\ Mempool.is_expired (float_of_Q 0) (- 2 ^ 53 - 5) (stamped_at (2 ^ 53 + 3))
     = Return true
  /\ Mempool.is_expired (float_of_Q 0) 0 (stamped_at (2 ^ 1024)) = Raise OverflowError
  /\ Mempool.is_expired (float_of_Q 0) 0 (stamped_at (- (2 ^ 1024 - 2 ^ 970 - 1)))
     = Return true
  /\ Mempool.is_expired (float_of_Q (1 # 2)) (2 ^ 53) (stamped_at (- 2 ^ 53))
     = Return false
  /\ Mempool.is_expired (float_of_Q (3 # 2)) (2 ^ 53) (stamped_at (- 2 ^ 53))
     = Return true.
Proof. cbv zeta. repeat split; vm_compute; reflexivity. Qed.

(** The test of line 109 raises nothing but [OverflowError]. *)
Lemma is_expired_raise now ttl tx e :
  Mempool.is_expired now ttl tx = Raise e -> e = OverflowError.
Proof.
  unfold Mempool.is_expired, float_of_int.
  destruct (binary_normalize _ _ _ _ _); congruence.
Qed.

Lemma is_expired_total now ttl tx :
  Mempool.is_expired now ttl tx <> Raise OverflowError ->
  Mempool.is_expired now ttl tx = Return (expired now ttl tx).
Proof.
  unfold expired. destruct (Mempool.is_expired now ttl tx) as [b|e] eqn:H; auto.
  intros Hne. apply is_expired_raise in H. congruence.
Qed.

(** The comprehension of lines 107-110 yields the keys of the entries that
    test [True], or the exception of the first test that raises. *)
Lemma expired_keys_Return now ttl (d : dict Transaction) : forall hs,
  Mempool.expired_keys now ttl d = Return hs ->
  hs = expired_list now ttl d
  /\ forall p, In p d ->
       Mempool.is_expired now ttl (snd p) = Return (expired now ttl (snd p)).
Proof.
  unfold expired_list.
  induction d as [|[h tx] d IH]; cbn; intros hs Hr.
  - inversion Hr. split; [reflexivity | intros p []].
  - unfold expired at 1. cbn.
    destruct (Mempool.is_expired now ttl tx) as [b|e] eqn:Hb; [|discriminate].
    destruct (Mempool.expired_keys now ttl d) as [ks|e]; [|discriminate].
    destruct (IH ks eq_refl) as [Hks Hall]. inversion Hr; subst hs. split.
    + destruct b; cbn; congruence.
    + intros p [<-|Hp]; [|now apply Hall]. cbn. unfold expired. now rewrite Hb.
Qed.

Lemma expired_keys_Raise now ttl (d : dict Transaction) e :
  Mempool.expired_keys now ttl d = Raise e ->
  exists p, In p d /\ Mempool.is_expired now ttl (snd p) = Raise e.
Proof.
  induction d as [|[h tx] d IH]; cbn; [discriminate|].
  destruct (Mempool.is_expired now ttl tx) as [b|e'] eqn:Hb.
  - destruct (Mempool.expired_keys now ttl d) as [ks|e']; [discriminate|].
    intros Hr. inversion Hr; subst e'. destruct (IH eq_refl) as [p [Hp Hraise]].
    exists p. auto.
  - intros Hr. inversion Hr; subst e'. exists (h, tx). auto.
Qed.

Lemma expired_keys_converts now ttl (d : dict Transaction) :
  (forall p, In p d -> Mempool.is_expired now ttl (snd p) <> Raise OverflowError) ->
  Mempool.expired_keys now ttl d = Return (expired_list now ttl d).
Proof.
  intros Hall.
  destruct (Mempool.expired_keys now ttl d) as [hs|e] eqn:Hk.
  - now rewrite (proj1 (expired_keys_Return _ _ _ Hk)).
  - apply expired_keys_Raise in Hk as [p [Hp Hraise]].
    pose proof (is_expired_raise _ _ _ Hraise). subst e.
    now destruct (Hall p Hp).
Qed.

Lemma clear_expired_eq ttl s :
  Mempool.clear_expired ttl s
  = match Mempool.expired_keys (time_time (world s)) ttl
            (Mempool.transactions (self s)) with
    | Raise x => (s, Raise x)
    | Return hs =>
        match call EvConnect s with
        | (s1, Raise x) => (s1, Raise x)
        | (s1, Return _) =>
            match for_each hs Mempool.expire_step s1 with
            | (s2, Return _) =>
                match call EvCommit s2 with
                | (s3, Return a) => (s3, Return a)
                | (s3, Raise x) => (set_store (fun _ => store (world s1)) s3, Raise x)
                end
            | (s2, Raise x) => (set_store (fun _ => store (world s1)) s2, Raise x)
            end
        end
    end.
Proof.
  unfold Mempool.clear_expired, bind, get.
  destruct (Mempool.expired_keys _ _ _) as [hs|x]; [|reflexivity].
  unfold with_db, bind.
  destruct (call EvConnect s) as [s1 [[]|x]]; auto.
  destruct (for_each _ Mempool.expire_step s1) as [s2 [[]|x]]; auto.
Qed.

(** A turn deletes its key from the mapping, or raises [KeyError] before
    touching it. *)
Lemma expire_step_self h s :
  (Mempool.transactions (self (fst (Mempool.expire_step h s)))
   = Mempool.transactions (self s)
   /\ snd (Mempool.expire_step h s) <> Return tt)
  \/ Mempool.transactions (self (fst (Mempool.expire_step h s)))
     = dict_del h (Mempool.transactions (self s)).
Proof.
  unfold Mempool.expire_step, Mempool.del_transaction, Mempool.delete_row, bind, get,
    call, modify, raise.
  cbn. destruct (dict_mem h _); cbn.
  - right. destruct (fault _ _); cbn; auto.
    destruct (mempool_tbl _); cbn; auto.
  - left. split; [reflexivity | discriminate].
Qed.

(** The loop deletes a prefix of its keys, and all of them when it runs to
    its end. *)
Lemma expire_loop_prefix hs : forall s,
  exists k,
    Mempool.transactions (self (fst (for_each hs Mempool.expire_step s)))
    = fold_left (fun d h => dict_del h d) (firstn k hs)
                (Mempool.transactions (self s))
    /\ (snd (for_each hs Mempool.expire_step s) = Return tt -> firstn k hs = hs).
Proof.
  induction hs as [|h hs IH]; intros s.
  - exists 0%nat. cbn. auto.
  - rewrite for_each_cons.
    destruct (expire_step_self h s) as [[Hsame Hraise] | Hdel];
      destruct (Mempool.expire_step h s) as [s1 [[]|e]] eqn:Hstep; cbn in *.
    + congruence.
    + exists 0%nat. cbn. split; [assumption | discriminate].
    + destruct (IH s1) as [k [Hk Hall]].
      exists (S k). cbn. rewrite <- Hdel. split; [assumption|].
      intros Hr. now rewrite (Hall Hr).
    + exists 1%nat. cbn. split; [assumption | discriminate].
Qed.

Lemma clear_expired_prefix ttl s :
  exists k,
    Mempool.transactions (self (fst (Mempool.clear_expired ttl s)))
    = fold_left (fun d h => dict_del h d)
        (firstn k (expired_list (time_time (world s)) ttl
                     (Mempool.transactions (self s))))
        (Mempool.transactions (self s))
    /\ (snd (Mempool.clear_expired ttl s) = Return tt ->
        firstn k (expired_list (time_time (world s)) ttl
                    (Mempool.transactions (self s)))
        = expired_list (time_time (world s)) ttl (Mempool.transactions (self s))).
Proof.
  rewrite clear_expired_eq.
  destruct (Mempool.expired_keys _ _ _) as [hs|x] eqn:Hkeys; cbn.
  2: { exists 0%nat. cbn. split; [reflexivity | discriminate]. }
  apply expired_keys_Return in Hkeys as [<- _].
  unfold call. destruct (fault (trace (world s)) EvConnect); cbn.
  - exists 0%nat. cbn. split; [reflexivity | discriminate].
  - destruct (expire_loop_prefix hs (log_event EvConnect s)) as [k [Hk Hall]].
    destruct (for_each hs Mempool.expire_step (log_event EvConnect s)) as [s1 [[]|e]];
      cbn in *.
    + exists k. destruct (fault _ _); cbn; auto.
    + exists k. split; [assumption | discriminate].
Qed.

(** In a dictionary, the keys of the expired entries are the keys of no
    other entry. *)
Lemma expired_key_iff now ttl (d : dict Transaction) p :
  dict_wf d -> In p d ->
  existsb (String.eqb (fst p)) (expired_list now ttl d) = expired now ttl (snd p).
Proof.
  intros Hwf Hin.
  destruct (expired now ttl (snd p)) eqn:Hexp.
  - apply existsb_exists. exists (fst p). split; [|apply String.eqb_refl].
    unfold expired_list. apply in_map. apply filter_In. auto.
  - apply not_true_is_false. intros Hex.
    apply existsb_exists in Hex as [k [Hk Heq]].
    apply String.eqb_eq in Heq. subst k.
    unfold expired_list in Hk. apply in_map_iff in Hk as [q [Hq Hqin]].
    apply filter_In in Hqin as [Hqin Hqexp].
    destruct p as [k v], q as [k' v']. cbn in *. subst k'.
    rewrite (dict_wf_key_inj _ _ _ Hwf Hin Hqin) in Hexp. congruence.
Qed.

Lemma existsb_firstn A (f : A -> bool) k (l : list A) :
  existsb f (firstn k l) = true -> existsb f l = true.
Proof.
  rewrite !existsb_exists. intros [x [Hin Hf]]. exists x. split; auto.
  rewrite <- (firstn_skipn k l). apply in_or_app. now left.
Qed.

(** Without faults, on a dictionary and an existing table, the loop runs to
    its end. *)
Lemma expire_loop_returns hs : forall s,
  (forall tr e, fault tr e = None) ->
  NoDup hs ->
  (forall h, In h hs -> dict_mem h (Mempool.transactions (self s)) = true) ->
  mempool_tbl (store (world s)) <> None ->
  snd (for_each hs Mempool.expire_step s) = Return tt
  /\ mempool_tbl (store (world (fst (for_each hs Mempool.expire_step s)))) <> None.
Proof.
  induction hs as [|h hs IH]; intros s Hok Hnd Hmem Htbl; [cbn; auto|].
  inversion Hnd as [|? ? Hnotin Hnd']; subst.
  rewrite for_each_cons.
  assert (Hstep : exists rows,
             Mempool.expire_step h s
             = (set_store (fun st => mkStore (blocks_tbl st) (transactions_tbl st) (Some rows))
                  (log_event (EvDeleteMempool h)
                     (set_self (Mempool.set_transactions (dict_del h)) s)),
                Return tt)).
  { unfold Mempool.expire_step, Mempool.del_transaction, Mempool.delete_row, bind,
      get, call, modify, raise.
    cbn. rewrite (Hmem h (or_introl eq_refl)). cbn. rewrite Hok. cbn.
    destruct (mempool_tbl (store (world s))) as [rows|] eqn:Hrows; [|congruence].
    eexists. reflexivity. }
  destruct Hstep as [rows Hstep]. rewrite Hstep.
  apply IH; auto; cbn; [|discriminate].
  intros h' Hin. specialize (Hmem h' (or_intror Hin)).
  apply dict_mem_true_iff in Hmem. apply dict_mem_true_iff.
  apply in_map_iff in Hmem as [p [Hp Hpin]]. apply in_map_iff.
  exists p. split; auto. unfold dict_del. apply filter_In. split; auto.
  apply negb_true_iff. apply String.eqb_neq. intros Heq. apply Hnotin. congruence.
Qed.

Lemma expired_list_NoDup now ttl (d : dict Transaction) :
  dict_wf d -> NoDup (expired_list now ttl d).
Proof. intros H. unfold expired_list. now apply dict_wf_filter. Qed.

Lemma expired_list_mem now ttl (d : dict Transaction) h :
  In h (expired_list now ttl d) -> dict_mem h d = true.
Proof.
  intros Hin. apply dict_mem_true_iff. unfold expired_list in Hin.
  apply in_map_iff in Hin as [p [Hp Hpin]]. apply filter_In in Hpin as [Hpin _].
  apply in_map_iff. eauto.
Qed.

Lemma clear_expired_returns ttl s :
  (forall tr e, fault tr e = None) ->
  dict_wf (Mempool.transactions (self s)) ->
  mempool_tbl (store (world s)) <> None ->
  (forall p, In p (Mempool.transactions (self s)) ->
     Mempool.is_expired (time_time (world s)) ttl (snd p) <> Raise OverflowError) ->
  snd (Mempool.clear_expired ttl s) = Return tt.
Proof.
  intros Hok Hwf Htbl Hconv.
  rewrite clear_expired_eq, (expired_keys_converts _ _ _ Hconv).
  set (hs := expired_list _ _ _).
  unfold call. rewrite Hok.
  destruct (expire_loop_returns (hs := hs) (log_event EvConnect s)) as [Hr _]; auto.
  - apply expired_list_NoDup; assumption.
  - cbn. intros h Hin. now apply expired_list_mem in Hin.
  - destruct (for_each hs Mempool.expire_step (log_event EvConnect s)) as [s1 [[]|e]];
      cbn in *; [|discriminate].
    rewrite Hok. reflexivity.
Qed.

End Expiry.

Lemma filter_none A (f : A -> bool) (l : list A) :
  filter f (filter (fun x => negb (f x)) l) = [].
Proof.
  induction l as [|x l IH]; cbn; auto.
  destruct (f x) eqn:Hf; cbn; auto. now rewrite Hf.
Qed.

Lemma trace_grows_refl O (s : Sys O) : trace_grows s s.
Proof. exists []. now rewrite app_nil_r. Qed.

Lemma trace_grows_trans O (a b c : Sys O) :
  trace_grows a b -> trace_grows b c -> trace_grows a c.
Proof.
  intros [e1 H1] [e2 H2]. exists (e1 ++ e2). now rewrite H2, H1, app_assoc.
Qed.

Lemma trace_grows_log O (s : Sys O) e : trace_grows s (log_event e s).
Proof. exists [e]. reflexivity. Qed.

Lemma trace_grows_store O (s : Sys O) f : trace_grows s (set_store f s).
Proof. exists []. cbn. now rewrite app_nil_r. Qed.

Lemma trace_grows_self O (s : Sys O) f : trace_grows s (set_self f s).
Proof. exists []. cbn. now rewrite app_nil_r. Qed.

Ltac trace_grows_side :=
  first [ exact (@trace_grows_refl _) | exact (@trace_grows_trans _)
        | exact (@trace_grows_log _) | exact (@trace_grows_store _)
        | exact (@trace_grows_self _) ].

Section ExpiryAndFailure.
Context {C : Collaborators}.

Lemma clear_expired_return_tests ttl s :
  snd (Mempool.clear_expired ttl s) = Return tt ->
  forall p, In p (Mempool.transactions (self s)) ->
    Mempool.is_expired (time_time (world s)) ttl (snd p)
    = Return (expired (time_time (world s)) ttl (snd p)).
Proof.
  rewrite clear_expired_eq.
  destruct (Mempool.expired_keys _ _ _) as [hs|x] eqn:Hkeys; [|discriminate].
  intros _. now apply (expired_keys_Return _ _ _ Hkeys).
Qed.

(** C9, as amended: with [now] the reading of the clock taken by the call
    and the test of line 109 evaluated as Python does, in floats,
    [clear_expired(ttl)] never removes an entry for which the test is not
    true and adds none; when it returns, every test has answered and the
    mapping is the old one without exactly the entries that tested true,
    the others left as they were and in their order, and a further run on
    the same mapping at the same clock reading removes nothing; it returns
    whenever no call to the store raises, the [mempool] table exists and no
    timestamp is too large for a float. *)
Theorem clear_expired_exact (ttl : Z) (s : Sys Mempool.t) :
  dict_wf (Mempool.transactions (self s)) ->
  let now := time_time (world s) in
  let d := Mempool.transactions (self s) in
  let s1 := fst (Mempool.clear_expired ttl s) in
  (forall p, In p d -> Mempool.is_expired now ttl (snd p) <> Return true ->
             In p (Mempool.transactions (self s1)))
  /\ (forall p, In p (Mempool.transactions (self s1)) -> In p d)
  /\ (snd (Mempool.clear_expired ttl s) = Return tt ->
      Mempool.transactions (self s1)
      = filter (fun p => negb (expired now ttl (snd p))) d
      /\ (forall p, In p d ->
            Mempool.is_expired now ttl (snd p) = Return (expired now ttl (snd p)))
      /\ forall s2, self s2 = self s1 -> clock (world s2) = clock (world s) ->
           Mempool.transactions (self (fst (Mempool.clear_expired ttl s2)))
           = Mempool.transactions (self s1))
  /\ ((forall tr e, fault tr e = None) ->
      mempool_tbl (store (world s)) <> None ->
      (forall p, In p d -> Mempool.is_expired now ttl (snd p) <> Raise OverflowError) ->
      snd (Mempool.clear_expired ttl s) = Return tt).
Proof.
  intros Hwf now d s1.
  destruct (clear_expired_prefix ttl s) as [k [Hk Hall]].
  fold s1 now d in Hk, Hall. rewrite fold_dict_del in Hk.
  set (keep := fun p : string * Transaction => negb (expired now ttl (snd p))).
  assert (Hexact : snd (Mempool.clear_expired ttl s) = Return tt ->
                   Mempool.transactions (self s1) = filter keep d).
  { intros Hr. rewrite Hk, (Hall Hr). apply filter_ext_in.
    intros p Hp. unfold keep. now rewrite expired_key_iff. }
  split; [|split; [|split]].
  - intros p Hp Hkeep. rewrite Hk. apply filter_In. split; [assumption|].
    apply negb_true_iff. apply not_true_is_false. intros Hex.
    apply existsb_firstn in Hex.
    rewrite expired_key_iff in Hex by assumption.
    apply Hkeep. unfold expired in Hex.
    destruct (Mempool.is_expired now ttl (snd p)); congruence.
  - intros p Hp. rewrite Hk in Hp. now apply filter_In in Hp.
  - intros Hr. split; [now apply Hexact|]. split.
    + now apply clear_expired_return_tests.
    + intros s2 Hself Hclock.
      destruct (clear_expired_prefix ttl s2) as [k2 [Hk2 _]].
      rewrite Hk2. unfold time_time. rewrite Hclock, Hself, (Hexact Hr).
      fold (time_time (world s)). fold now. unfold expired_list, keep.
      rewrite (filter_none (fun p => expired now ttl (snd p))).
      cbn. now rewrite firstn_nil.
  - intros Hok Htbl Hconv. now apply clear_expired_returns.
Qed.

Lemma persist_trace_grows tx : keeps trace_grows (Mempool.persist tx).
Proof. unfold Mempool.persist. keeps_go trace_grows_side fail. Qed.

(** A failed persistence leaves the store as the block found it. *)
Lemma persist_raise_store tx s s2 e :
  Mempool.persist tx s = (s2, Raise e) -> store (world s2) = store (world s).
Proof.
  unfold Mempool.persist, with_db, call at 1.
  destruct (fault _ _); cbn.
  - intros H. inversion H; subst. reflexivity.
  - destruct (bind _ _ _) as [s3 [[]|x]]; intros H; inversion H; subst.
    reflexivity.
Qed.

(** An admission nothing disturbs: one broadcast, then the insertion into
    the mapping, then the row, and [True]. *)
Lemma add_transaction_admits (tx : Transaction) (s : Sys Mempool.t)
    (rows : list Transaction) :
  String.eqb (tx_hash tx) "" || negb (String.eqb (tx_hash tx) (calculate_hash tx))
  = false ->
  dict_mem (tx_hash tx) (Mempool.transactions (self s)) = false ->
  len (Mempool.transactions (self s)) < Mempool.max_size (self s) ->
  (forall tr e, fault tr e = None) ->
  mempool_tbl (store (world s)) = Some rows ->
  exists s',
    Mempool.add_transaction tx s = (s', Return true)
    /\ Mempool.transactions (self s')
       = Mempool.transactions (self s) ++ [(tx_hash tx, tx)]
    /\ trace (world s')
       = trace (world s) ++ [EvBroadcast tx; EvConnect; EvInsertMempool tx; EvCommit]
    /\ exists rows', mempool_tbl (store (world s')) = Some rows'
                     /\ existsb (fun r => String.eqb (tx_hash r) (tx_hash tx)) rows'
                        = true.
Proof.
  intros Hhash Hfresh Hroom Hok Hrows.
  unfold Mempool.add_transaction, Mempool.persist, Mempool.insert_or_ignore,
    with_db, try_except, bind, get, call, modify, ret.
  cbn. rewrite Hhash, Hfresh. cbn.
  destruct (Z.geb_spec (len (Mempool.transactions (self s)))
                       (Mempool.max_size (self s))); [lia|].
  cbn. rewrite !Hok. cbn. rewrite Hrows.
  destruct (existsb _ rows) eqn:Hrow; cbn; rewrite Hok; cbn;
    eexists; (split; [reflexivity|]); cbn;
    (split; [now apply dict_set_fresh|]);
    (split; [now rewrite <- !app_assoc|]).
  - exists rows. auto.
  - exists (rows ++ [tx]). split; [reflexivity|].
    rewrite existsb_app. cbn. now rewrite String.eqb_refl, orb_true_r.
Qed.

(** C2, what the code does when persistence fails: the transaction has
    been broadcast and inserted into the mapping before the store is
    written, the exception is caught, and [add_transaction] returns
    [False] with the transaction still in the mapping and nothing
    persisted. *)
Theorem add_transaction_persist_failure (tx : Transaction) (s s2 : Sys Mempool.t)
    (e : exn) :
  String.eqb (tx_hash tx) "" || negb (String.eqb (tx_hash tx) (calculate_hash tx))
  = false ->
  dict_mem (tx_hash tx) (Mempool.transactions (self s)) = false ->
  len (Mempool.transactions (self s)) < Mempool.max_size (self s) ->
  fault (trace (world s)) (EvBroadcast tx) = None ->
  Mempool.persist tx
    (set_self (Mempool.set_transactions (dict_set (tx_hash tx) tx))
              (log_event (EvBroadcast tx) s))
  = (s2, Raise e) ->
  Mempool.add_transaction tx s = (s2, Return false)
  /\ Mempool.transactions (self s2)
     = Mempool.transactions (self s) ++ [(tx_hash tx, tx)]
  /\ In (EvBroadcast tx) (trace (world s2))
  /\ store (world s2) = store (world s).
Proof.
  intros Hhash Hfresh Hroom Hcast Hpersist.
  split; [|split; [|split]].
  - unfold Mempool.add_transaction, try_except, bind, get, call, modify, ret. cbn.
    rewrite Hhash, Hfresh. cbn.
    destruct (Z.geb_spec (len (Mempool.transactions (self s)))
                         (Mempool.max_size (self s))); [lia|].
    cbn. rewrite Hcast. cbn.
    rewrite Hpersist. reflexivity.
  - pose proof (persist_same_self tx
                  (set_self (Mempool.set_transactions (dict_set (tx_hash tx) tx))
                            (log_event (EvBroadcast tx) s))) as Hself.
    rewrite Hpersist in Hself. unfold same_self in Hself. cbn in Hself.
    rewrite Hself. cbn. now apply dict_set_fresh.
  - pose proof (persist_trace_grows tx
                  (set_self (Mempool.set_transactions (dict_set (tx_hash tx) tx))
                            (log_event (EvBroadcast tx) s))) as [evs Hevs].
    rewrite Hpersist in Hevs. cbn in Hevs. rewrite Hevs.
    apply in_or_app. left. apply in_or_app. right. now left.
  - apply persist_raise_store in Hpersist. rewrite Hpersist. reflexivity.
Qed.

End ExpiryAndFailure.

Lemma pool3_wf : dict_wf (Mempool.transactions Testbed.pool3).
Proof.
  unfold dict_wf. cbn. repeat constructor; cbn; intuition discriminate.
Defined.

Lemma pool3_converts ttl :
  forall p, In p (Mempool.transactions Testbed.pool3) ->
    Mempool.is_expired (time_time (world Testbed.pool3_sys)) ttl (snd p)
    <> Raise OverflowError.
Proof. intros p [<-|[<-|[<-|[]]]]; vm_compute; discriminate. Defined.

Lemma clear_expired_exact_witness :
  Mempool.transactions
    (self (fst (Mempool.clear_expired (C := Testbed.reliable) 3600 Testbed.pool3_sys)))
  = [(tx_hash Testbed.tx_a, Testbed.tx_a); (tx_hash Testbed.tx_c, Testbed.tx_c)].
Proof.
  destruct (clear_expired_exact (C := Testbed.reliable) 3600 Testbed.pool3_sys pool3_wf)
    as (_ & _ & Hexact & Hret).
  rewrite (proj1 (Hexact (Hret (fun _ _ => eq_refl) ltac:(discriminate)
                            (pool3_converts 3600)))).
  vm_compute. reflexivity.
Defined.

(** C9 as stated fails twice.  The call reads the clock anew: on the pool
    of three a first run at 3700 removes [tx_b] and leaves [tx_a], whose
    age is an hour exactly; nothing arrives, and the next run, a second
    later, removes [tx_a].  And the difference is a float: half a second
    past the epoch a transaction stamped [-2^53] is older than [2^53]
    seconds, but the float difference is [2^53] and the entry stays. *)
Lemma clear_expired_not_idempotent :
  let run := Mempool.clear_expired (C := Testbed.reliable) in
  let s1 := fst (run 3600 Testbed.pool3_sys) in
  let s2 := fst (run 3600 (at_clock 3701 s1)) in
  (snd (run 3600 Testbed.pool3_sys) = Return tt
   /\ Mempool.transactions (self s1)
      = [(tx_hash Testbed.tx_a, Testbed.tx_a); (tx_hash Testbed.tx_c, Testbed.tx_c)]
   /\ snd (run 3600 (at_clock 3701 s1)) = Return tt
   /\ Mempool.transactions (self s2) = [(tx_hash Testbed.tx_c, Testbed.tx_c)])
  /\ ((inject_Z (2 ^ 53) < clock (world Testbed.pool_old_sys)
                            - inject_Z (timestamp Testbed.tx_old))%Q
      /\ snd (run (2 ^ 53) Testbed.pool_old_sys) = Return tt
      /\ Mempool.transactions (self (fst (run (2 ^ 53) Testbed.pool_old_sys)))
         = [(tx_hash Testbed.tx_old, Testbed.tx_old)]).
Proof.
  cbv zeta. split; [|split; [|split]]; try (vm_compute; reflexivity).
  repeat split; vm_compute; reflexivity.
Qed.

Lemma add_transaction_persist_failure_witness :
  Mempool.add_transaction (C := Testbed.failing Testbed.is_insert) Testbed.tx_a
    Testbed.empty_pool_sys
  = (mkSys (Mempool.mk [(tx_hash Testbed.tx_a, Testbed.tx_a)] 1000)
           (mkWorld Testbed.empty_store
              [EvBroadcast Testbed.tx_a; EvConnect; EvInsertMempool Testbed.tx_a] 0),
     Return false).
Proof.
  apply (add_transaction_persist_failure (C := Testbed.failing Testbed.is_insert)
           Testbed.tx_a Testbed.empty_pool_sys (e := OtherError "disk I/O error"));
    reflexivity.
Defined.

(** ** The chain manager *)

Lemma trace_app_cons (tr : list event) (e : event) (evs : list event) :
  (tr ++ [e]) ++ evs = tr ++ e :: evs.
Proof. now rewrite <- app_assoc. Qed.

Section ChainFacts.
Context {C : Collaborators}.



End ChainFacts.


Section AddBlock.
Context {C : Collaborators}.

Lemma get_last_block_app d (prefix : list Block) (b : Block) :
  Blockchain.get_last_block (Blockchain.mk d (prefix ++ [b])) = Some b.
Proof.
  unfold Blockchain.get_last_block. cbn [Blockchain.chain].
  rewrite last_last. now destruct prefix.
Qed.

(** [add_block] on a non-empty batch and a chain with a last block. *)
Lemma add_block_eq txs key s last_block :
  txs <> [] ->
  Blockchain.get_last_block (self s) = Some last_block ->
  let candidate :=
    Blockchain.candidate_block last_block (clock (world s)) txs
      (Blockchain.difficulty (self s)) in
  let new_block :=
    sealed_block last_block (clock (world s)) txs (Blockchain.difficulty (self s)) key in
  Blockchain.add_block txs key s
  = match call (EvProofOfWork candidate) s with
    | (s1, Raise e) => (s1, Raise e)
    | (s1, Return _) =>
        match call (EvSignBlock
                      (set_validator (public_pem key) (proof_of_work candidate))) s1 with
        | (s2, Raise e) => (s2, Raise e)
        | (s2, Return _) =>
            match Blockchain.persist_block new_block txs s2 with
            | (s3, Return _) =>
                (set_self (Blockchain.set_chain (fun c => c ++ [new_block])) s3,
                 Return (Some new_block))
            | (s3, Raise _) => (s3, Return None)
            end
        end
    end.
Proof.
  intros Hne Hlast candidate new_block.
  unfold Blockchain.add_block. destruct txs; [congruence|]. cbn [is_empty].
  unfold bind at 1, get. rewrite Hlast.
  fold candidate. unfold bind at 1.
  destruct (call (EvProofOfWork candidate) s) as [s1 [[]|e]]; auto.
  unfold bind at 1.
  destruct (call _ s1) as [s2 [[]|e]]; auto.
  unfold try_except, bind at 1. fold new_block.
  change (sign_block key (set_validator (public_pem key) (proof_of_work candidate)))
    with new_block.
  destruct (Blockchain.persist_block new_block (t :: txs) s2) as [s3 [[]|e]]; auto.
Qed.

End AddBlock.

Section AddBlockProperties.
Context {C : Collaborators}.

Lemma persist_block_same_self b txs : keeps same_self (Blockchain.persist_block b txs).
Proof.
  unfold Blockchain.persist_block, Repo.save_block, Repo.save_transactions_bulk.
  keeps_go same_self_side fail.
Qed.

Lemma persist_block_trace_grows b txs : keeps trace_grows (Blockchain.persist_block b txs).
Proof.
  unfold Blockchain.persist_block, Repo.save_block, Repo.save_transactions_bulk.
  keeps_go trace_grows_side fail.
Qed.

(** When both saves return, the block row and the rows of its transactions
    are in the store, under one block id. *)
Lemma persist_block_saved b txs s :
  snd (Blockchain.persist_block b txs s) = Return tt ->
  exists block_id rows txrows,
    blocks_tbl (store (world (fst (Blockchain.persist_block b txs s))))
    = Some (rows ++ [(block_id, b)])
    /\ transactions_tbl (store (world (fst (Blockchain.persist_block b txs s))))
       = Some (txrows ++ map (fun tx => (block_id, tx)) txs).
Proof.
  unfold Blockchain.persist_block, Repo.save_block, Repo.save_transactions_bulk,
    bind, call, get, modify, ret, raise.
  cbn. destruct (fault _ _); cbn; [discriminate|].
  destruct (blocks_tbl (store (world s))) as [rows|]; cbn; [|discriminate].
  destruct (fault _ _); cbn; [discriminate|].
  destruct (transactions_tbl (store (world s))) as [txrows|]; cbn; [|discriminate].
  intros _. eauto.
Qed.

(** When no call raises and the two tables exist, both saves return. *)
Lemma persist_block_returns b txs s rows txrows :
  (forall tr e, fault tr e = None) ->
  blocks_tbl (store (world s)) = Some rows ->
  transactions_tbl (store (world s)) = Some txrows ->
  snd (Blockchain.persist_block b txs s) = Return tt.
Proof.
  intros Hok Hrows Htxrows.
  unfold Blockchain.persist_block, Repo.save_block, Repo.save_transactions_bulk,
    bind, call, get, modify, ret, raise.
  cbn. rewrite Hok. cbn. rewrite Hrows. cbn. rewrite Hok. cbn. rewrite Htxrows.
  reflexivity.
Qed.

(** C4: [add_block] appends the new block to the in-memory chain only when
    the block and its transactions have been saved; in every other outcome
    the chain is as it was before the call; when either save raises, the
    call returns [None], the chain unchanged; and when both saves return,
    the sealed block is appended to the chain and returned, which is what
    happens whenever no call raises and the two tables exist. *)
Theorem add_block_appends_after_persist (txs : list Transaction) (key : PrivateKey)
    (s : Sys Blockchain.t) :
  (forall b,
      snd (Blockchain.add_block txs key s) = Return (Some b) ->
      Blockchain.chain (self (fst (Blockchain.add_block txs key s)))
      = Blockchain.chain (self s) ++ [b]
      /\ exists block_id rows txrows,
           blocks_tbl (store (world (fst (Blockchain.add_block txs key s))))
           = Some (rows ++ [(block_id, b)])
           /\ transactions_tbl (store (world (fst (Blockchain.add_block txs key s))))
              = Some (txrows ++ map (fun tx => (block_id, tx)) txs))
  /\ ((forall b, snd (Blockchain.add_block txs key s) <> Return (Some b)) ->
      Blockchain.chain (self (fst (Blockchain.add_block txs key s)))
      = Blockchain.chain (self s))
  /\ (forall last_block s2 e,
        txs <> [] ->
        Blockchain.get_last_block (self s) = Some last_block ->
        let candidate :=
          Blockchain.candidate_block last_block (clock (world s)) txs
            (Blockchain.difficulty (self s)) in
        let unsigned := set_validator (public_pem key) (proof_of_work candidate) in
        fault (trace (world s)) (EvProofOfWork candidate) = None ->
        fault (trace (world s) ++ [EvProofOfWork candidate]) (EvSignBlock unsigned)
        = None ->
        Blockchain.persist_block (sign_block key unsigned) txs
          (log_event (EvSignBlock unsigned) (log_event (EvProofOfWork candidate) s))
        = (s2, Raise e) ->
        Blockchain.add_block txs key s = (s2, Return None)
        /\ Blockchain.chain (self s2) = Blockchain.chain (self s))
  /\ (forall last_block s2,
        txs <> [] ->
        Blockchain.get_last_block (self s) = Some last_block ->
        let candidate :=
          Blockchain.candidate_block last_block (clock (world s)) txs
            (Blockchain.difficulty (self s)) in
        let unsigned := set_validator (public_pem key) (proof_of_work candidate) in
        let new_block := sign_block key unsigned in
        fault (trace (world s)) (EvProofOfWork candidate) = None ->
        fault (trace (world s) ++ [EvProofOfWork candidate]) (EvSignBlock unsigned)
        = None ->
        Blockchain.persist_block new_block txs
          (log_event (EvSignBlock unsigned) (log_event (EvProofOfWork candidate) s))
        = (s2, Return tt) ->
        Blockchain.add_block txs key s
        = (set_self (Blockchain.set_chain (fun c => c ++ [new_block])) s2,
           Return (Some new_block))
        /\ Blockchain.chain (self (fst (Blockchain.add_block txs key s)))
           = Blockchain.chain (self s) ++ [new_block])
  /\ ((forall tr e, fault tr e = None) ->
      forall last_block rows txrows,
        txs <> [] ->
        Blockchain.get_last_block (self s) = Some last_block ->
        blocks_tbl (store (world s)) = Some rows ->
        transactions_tbl (store (world s)) = Some txrows ->
        let new_block :=
          sign_block key
            (set_validator (public_pem key)
               (proof_of_work
                  (Blockchain.candidate_block last_block (clock (world s)) txs
                     (Blockchain.difficulty (self s))))) in
        snd (Blockchain.add_block txs key s) = Return (Some new_block)
        /\ Blockchain.chain (self (fst (Blockchain.add_block txs key s)))
           = Blockchain.chain (self s) ++ [new_block]).
Proof.
  assert (Hshape :
    Blockchain.add_block txs key s = (s, Return None)
    \/ exists last_block, txs <> [] /\ Blockchain.get_last_block (self s) = Some last_block).
  { unfold Blockchain.add_block. destruct txs; cbn [is_empty]; auto.
    unfold bind, get.
    destruct (Blockchain.get_last_block (self s)) as [last_block|] eqn:Hlast; auto.
    right. exists last_block. split; [discriminate | reflexivity]. }
  split; [|split; [|split; [|split]]].
  - intros b. destruct Hshape as [Hnone | (last_block & Hne & Hlast)].
    + rewrite Hnone. discriminate.
    + rewrite (add_block_eq key s Hne Hlast). cbn zeta.
      unfold call. destruct (fault _ _); cbn; [discriminate|].
      destruct (fault _ _); cbn; [discriminate|].
      match goal with |- context [Blockchain.persist_block ?nb txs ?s2] =>
        pose proof (persist_block_same_self nb txs s2) as Hself;
        pose proof (persist_block_saved nb txs s2) as Hsaved;
        destruct (Blockchain.persist_block nb txs s2) as [s3 [[]|x]] end;
        cbn in *; [|discriminate].
      intros Hb. injection Hb as Hb. subst b.
      unfold same_self in Hself. rewrite Hself. split; [reflexivity|].
      now apply Hsaved.
  - intros Hnot. destruct Hshape as [Hnone | (last_block & Hne & Hlast)].
    + now rewrite Hnone.
    + revert Hnot. rewrite (add_block_eq key s Hne Hlast). cbn zeta.
      unfold call. destruct (fault _ _); cbn; [reflexivity|].
      destruct (fault _ _); cbn; [reflexivity|].
      match goal with |- context [Blockchain.persist_block ?nb txs ?s2] =>
        pose proof (persist_block_same_self nb txs s2) as Hself;
        destruct (Blockchain.persist_block nb txs s2) as [s3 [[]|x]] end;
        cbn in *; intros Hnot.
      * exfalso. eapply Hnot. reflexivity.
      * unfold same_self in Hself. now rewrite Hself.
  - intros last_block s2 e Hne Hlast candidate unsigned Hpow Hsign Hpersist.
    rewrite (add_block_eq key s Hne Hlast). cbn zeta.
    fold candidate. fold unsigned.
    unfold call. rewrite Hpow. cbn. rewrite Hsign.
    unfold sealed_block. fold candidate. fold unsigned.
    rewrite Hpersist. split; [reflexivity|].
    pose proof (persist_block_same_self (sign_block key unsigned) txs
                  (log_event (EvSignBlock unsigned)
                             (log_event (EvProofOfWork candidate) s))) as Hself.
    rewrite Hpersist in Hself. unfold same_self in Hself. cbn in Hself.
    now rewrite Hself.
  - intros last_block s2 Hne Hlast candidate unsigned new_block Hpow Hsign Hpersist.
    rewrite (add_block_eq key s Hne Hlast). cbn zeta.
    fold candidate. fold unsigned.
    unfold call. rewrite Hpow. cbn. rewrite Hsign.
    unfold sealed_block. fold candidate. fold unsigned. fold new_block.
    rewrite Hpersist. split; [reflexivity|]. cbn.
    pose proof (persist_block_same_self new_block txs
                  (log_event (EvSignBlock unsigned)
                             (log_event (EvProofOfWork candidate) s))) as Hself.
    rewrite Hpersist in Hself. unfold same_self in Hself. cbn in Hself.
    now rewrite Hself.
  - intros Hok last_block rows txrows Hne Hlast Hrows Htxrows new_block.
    rewrite (add_block_eq key s Hne Hlast). cbn zeta.
    unfold call. rewrite !Hok. unfold sealed_block. fold new_block.
    match goal with |- context [Blockchain.persist_block new_block txs ?s2] =>
      pose proof (persist_block_same_self new_block txs s2) as Hself;
      pose proof (@persist_block_returns new_block txs s2 rows txrows Hok Hrows Htxrows)
        as Hret;
      destruct (Blockchain.persist_block new_block txs s2) as [s3 [[]|x]] end;
      cbn in *; [|discriminate].
    split; [reflexivity|]. unfold same_self in Hself. now rewrite Hself.
Qed.

(** C5: [add_block] on an empty batch, or on a chain without a block,
    returns [None] with the object, the store and the trace of calls as
    they were: no proof-of-work, no save.  On a non-empty batch and a
    chain ending in [last_block], the candidate has index
    [last_block.index + 1] and previous hash [last_block.hash]; it is the
    block handed to proof-of-work, the first call made, and the block
    returned on success still has that index and previous hash. *)
Theorem add_block_guards_and_candidate (txs : list Transaction) (key : PrivateKey)
    (s : Sys Blockchain.t) :
  (txs = [] \/ Blockchain.chain (self s) = [] ->
   Blockchain.add_block txs key s = (s, Return None))
  /\ (forall prefix last_block,
        txs <> [] ->
        Blockchain.chain (self s) = prefix ++ [last_block] ->
        let candidate :=
          Blockchain.candidate_block last_block (clock (world s)) txs
            (Blockchain.difficulty (self s)) in
        index candidate = index last_block + 1
        /\ previous_hash candidate = hash last_block
        /\ b_transactions candidate = txs
        /\ (exists evs,
              trace (world (fst (Blockchain.add_block txs key s)))
              = trace (world s) ++ EvProofOfWork candidate :: evs)
        /\ (forall b,
              snd (Blockchain.add_block txs key s) = Return (Some b) ->
              index b = index last_block + 1
              /\ previous_hash b = hash last_block
              /\ b_transactions b = txs)).
Proof.
  split.
  - intros [Htxs | Hchain]; unfold Blockchain.add_block.
    + subst txs. reflexivity.
    + destruct txs; [reflexivity|]. cbn [is_empty]. unfold bind, get.
      unfold Blockchain.get_last_block. now rewrite Hchain.
  - intros prefix last_block Hne Hchain candidate.
    assert (Hlast : Blockchain.get_last_block (self s) = Some last_block).
    { destruct (self s) as [d c]. cbn in Hchain. subst c. apply get_last_block_app. }
    repeat (split; [reflexivity|]).
    rewrite (add_block_eq key s Hne Hlast). cbn zeta. fold candidate.
    unfold call. destruct (fault _ _); cbn.
    { split; [exists []; reflexivity | discriminate]. }
    destruct (fault _ _); cbn.
    { split; [|discriminate]. eexists. now rewrite trace_app_cons. }
    match goal with |- context [Blockchain.persist_block ?nb txs ?s2] =>
      pose proof (persist_block_trace_grows nb txs s2) as [evs Hevs];
      destruct (Blockchain.persist_block nb txs s2) as [s3 [[]|x]] end; cbn in *.
    + split.
      * eexists. now rewrite Hevs, <- !app_assoc.
      * intros b Hb. injection Hb as Hb. subst b. repeat split.
    + split; [|discriminate].
      eexists. now rewrite Hevs, <- !app_assoc.
Qed.

End AddBlockProperties.

(** ** Genesis and start-up *)

Lemma same_params_trans a b c : same_params a b -> same_params b c -> same_params a c.
Proof. unfold same_params. intros [] []. split; congruence. Qed.

Lemma same_but_trace_trans O (a b c : Sys O) :
  same_but_trace a b -> same_but_trace b c -> same_but_trace a c.
Proof. unfold same_but_trace. intros (? & ? & ?) (? & ? & ?). repeat split; congruence. Qed.

Lemma no_reset_refl O (s : Sys O) : no_reset s s.
Proof. exists []. split; [now rewrite app_nil_r | intros []]. Qed.

Lemma no_reset_trans O (a b c : Sys O) : no_reset a b -> no_reset b c -> no_reset a c.
Proof.
  intros (e1 & H1 & N1) (e2 & H2 & N2). exists (e1 ++ e2). split.
  - now rewrite H2, H1, app_assoc.
  - intros Hin. apply in_app_or in Hin as [?|?]; auto.
Qed.

Lemma no_reset_store O (s : Sys O) f : no_reset s (set_store f s).
Proof. exists []. split; [cbn; now rewrite app_nil_r | intros []]. Qed.

Lemma no_reset_self O (s : Sys O) f : no_reset s (set_self f s).
Proof. exists []. split; [cbn; now rewrite app_nil_r | intros []]. Qed.

Lemma keeps_call_no_reset {C : Collaborators} O (e : event) :
  e <> EvDropTables -> keeps no_reset (call (O := O) e).
Proof.
  intros Hne s. unfold call.
  destruct (fault _ _); cbn; (exists [e]; split; [reflexivity|]);
    intros [Hin|[]]; congruence.
Qed.

Ltac no_reset_side :=
  first [ exact (@no_reset_refl _) | exact (@no_reset_trans _)
        | exact (@no_reset_store _) | exact (@no_reset_self _) ].

Ltac no_reset_call := apply keeps_call_no_reset; discriminate.

Ltac same_params_side :=
  first [ exact same_params_trans
        | solve [intros; unfold same_params; cbn; split; congruence] ].

Ltac same_but_trace_side :=
  first [ exact (@same_but_trace_trans _)
        | solve [intros; unfold same_but_trace; cbn; repeat split; congruence] ].

Section Genesis.
Context {C : Collaborators}.

Lemma genesis_block_params s s' :
  same_params s s' -> genesis_block s' = genesis_block s.
Proof. intros [Hd Hc]. unfold genesis_block. now rewrite Hd, Hc. Qed.

Lemma create_genesis_same_self : keeps same_self Blockchain._create_genesis_block.
Proof.
  unfold Blockchain._create_genesis_block, Repo.save_block, Repo.save_transaction.
  keeps_go same_self_side fail.
Qed.

Lemma initialize_same_params : keeps same_params Blockchain._initialize_new_chain.
Proof.
  unfold Blockchain._initialize_new_chain, Blockchain._create_genesis_block,
    Repo.save_block, Repo.save_transaction.
  keeps_go same_params_side fail.
Qed.

Lemma reset_same_params : keeps same_params Blockchain._reset_blockchain.
Proof.
  unfold Blockchain._reset_blockchain, Repo.init_db.
  keeps_go same_params_side fail.
Qed.

Lemma init_db_same_params : keeps same_params (Repo.init_db (O := Blockchain.t)).
Proof. unfold Repo.init_db. keeps_go same_params_side fail. Qed.

Lemma load_blocks_same_but_trace n : forall idx acc,
  keeps same_but_trace (Blockchain.load_blocks n idx acc).
Proof.
  induction n as [|n IH]; intros idx acc; cbn [Blockchain.load_blocks].
  - keeps_go ltac:(same_but_trace_side) fail.
  - unfold Repo.get_block_by_index.
    keeps_go ltac:(same_but_trace_side) ltac:(apply IH).
Qed.

Lemma load_chain_same_but_trace : keeps same_but_trace Blockchain.load_chain.
Proof.
  unfold Blockchain.load_chain, Repo.get_block_count.
  keeps_go ltac:(same_but_trace_side) ltac:(apply load_blocks_same_but_trace).
Qed.

(** Loading the chain and initialising a new one drop no table. *)
Lemma init_db_no_reset : keeps no_reset (Repo.init_db (O := Blockchain.t)).
Proof. unfold Repo.init_db. keeps_go no_reset_side no_reset_call. Qed.

Lemma load_blocks_no_reset n : forall idx acc,
  keeps no_reset (Blockchain.load_blocks n idx acc).
Proof.
  induction n as [|n IH]; intros idx acc; cbn [Blockchain.load_blocks].
  - keeps_go no_reset_side fail.
  - unfold Repo.get_block_by_index.
    keeps_go no_reset_side ltac:(first [no_reset_call | apply IH]).
Qed.

Lemma load_chain_no_reset : keeps no_reset Blockchain.load_chain.
Proof.
  unfold Blockchain.load_chain, Repo.get_block_count.
  keeps_go no_reset_side ltac:(first [no_reset_call | apply load_blocks_no_reset]).
Qed.

Lemma initialize_no_reset : keeps no_reset Blockchain._initialize_new_chain.
Proof.
  unfold Blockchain._initialize_new_chain, Blockchain._create_genesis_block,
    Repo.save_block, Repo.save_transaction.
  keeps_go no_reset_side no_reset_call.
Qed.

(** What [load_chain] returns is empty, or accepted by [is_chain_valid]. *)
Lemma load_chain_result s loaded :
  snd (Blockchain.load_chain s) = Return loaded ->
  loaded = [] \/ (loaded <> [] /\ is_chain_valid loaded = true).
Proof.
  unfold Blockchain.load_chain, bind.
  destruct (Repo.get_block_count s) as [s1 [n|e]]; cbn; [|discriminate].
  destruct (Blockchain.load_blocks _ _ _ s1) as [s2 [[chain|]|e]]; cbn;
    try discriminate.
  - destruct chain as [|b chain]; cbn.
    + intros H. injection H as H. auto.
    + destruct (is_chain_valid (b :: chain)) eqn:Hv; cbn;
        intros H; injection H as H; subst; auto.
      right. split; [discriminate | assumption].
  - intros H. injection H as H. auto.
Qed.

(** When a genesis block is created, it is the mined candidate, its
    proof-of-work has been called for, and its row is in the store. *)
Lemma create_genesis_result s s' b :
  Blockchain._create_genesis_block s = (s', Return b) ->
  b = genesis_block s
  /\ In (EvProofOfWork (Blockchain.genesis_candidate (clock (world s))
                          (Blockchain.difficulty (self s))))
        (trace (world s'))
  /\ exists rows block_id,
       blocks_tbl (store (world s')) = Some (rows ++ [(block_id, b)]).
Proof.
  unfold Blockchain._create_genesis_block, Repo.save_block, Repo.save_transaction,
    try_except, bind, call, get, modify, ret, raise.
  cbn. destruct (fault _ _); cbn; [discriminate|].
  destruct (fault _ _); cbn; [discriminate|].
  destruct (blocks_tbl (store (world s))) as [rows|]; cbn; [|discriminate].
  destruct (fault _ _); cbn; [discriminate|].
  destruct (transactions_tbl (store (world s))) as [txrows|]; cbn; [|discriminate].
  intros H. inversion H; subst. cbn. split; [reflexivity|]. split.
  - apply in_or_app. left. apply in_or_app. left. apply in_or_app. right. now left.
  - eauto.
Qed.

(** [_initialize_new_chain] makes the genesis block the only member of the
    chain, or raises [RuntimeError] and leaves the chain alone. *)
Lemma initialize_result s :
  (snd (Blockchain._initialize_new_chain s) = Return tt
   /\ Blockchain.chain (self (fst (Blockchain._initialize_new_chain s)))
      = [genesis_block s])
  \/ (snd (Blockchain._initialize_new_chain s) = Raise RuntimeError
      /\ Blockchain.chain (self (fst (Blockchain._initialize_new_chain s)))
         = Blockchain.chain (self s)).
Proof.
  unfold Blockchain._initialize_new_chain, try_except, bind, modify, raise.
  pose proof (create_genesis_same_self s) as Hself.
  destruct (Blockchain._create_genesis_block s) as [s1 [b|e]] eqn:Hg; cbn in *.
  - left. split; [reflexivity|].
    apply create_genesis_result in Hg as [Hb _]. now rewrite Hb.
  - right. unfold same_self in Hself. now rewrite Hself.
Qed.

End Genesis.

Section StartUp.
Context {C : Collaborators}.

(** When [_reset_blockchain] returns, the three tables are there and
    empty. *)
Lemma reset_result s s' :
  Blockchain._reset_blockchain s = (s', Return tt) ->
  store (world s') = mkStore (Some []) (Some []) (Some []).
Proof.
  unfold Blockchain._reset_blockchain, Repo.init_db, with_db, bind, call, modify.
  cbn. destruct (fault _ _); cbn; [discriminate|].
  destruct (fault _ _); cbn; [discriminate|].
  destruct (fault _ _); cbn; [discriminate|].
  destruct (fault _ _); cbn; [discriminate|].
  intros H. inversion H; subst. reflexivity.
Qed.

(** When [_initialize_new_chain] returns, the genesis rows have been added
    to the store and no other row has been touched. *)
Lemma initialize_store s s' :
  Blockchain._initialize_new_chain s = (s', Return tt) ->
  exists rows txrows,
    blocks_tbl (store (world s)) = Some rows
    /\ transactions_tbl (store (world s)) = Some txrows
    /\ store (world s')
       = mkStore (Some (rows ++ [(len rows + 1, genesis_block s)]))
                 (Some (txrows ++ [(len rows + 1,
                                    Blockchain.genesis_tx (clock (world s)))]))
                 (mempool_tbl (store (world s))).
Proof.
  unfold Blockchain._initialize_new_chain, Blockchain._create_genesis_block,
    Repo.save_block, Repo.save_transaction,
    try_except, bind, call, get, modify, ret, raise.
  cbn. destruct (fault _ _); cbn; [discriminate|].
  destruct (fault _ _); cbn; [discriminate|].
  destruct (blocks_tbl (store (world s))) as [rows|]; cbn; [|discriminate].
  destruct (fault _ _); cbn; [discriminate|].
  destruct (transactions_tbl (store (world s))) as [txrows|]; cbn; [|discriminate].
  intros H. inversion H; subst. exists rows, txrows. auto.
Qed.

(** Without faults and with its tables in place, [_initialize_new_chain]
    returns. *)
Lemma initialize_returns s rows txrows :
  (forall tr e, fault tr e = None) ->
  blocks_tbl (store (world s)) = Some rows ->
  transactions_tbl (store (world s)) = Some txrows ->
  snd (Blockchain._initialize_new_chain s) = Return tt.
Proof.
  intros Hok Hrows Htx.
  unfold Blockchain._initialize_new_chain, Blockchain._create_genesis_block,
    Repo.save_block, Repo.save_transaction,
    try_except, bind, call, get, modify, ret, raise.
  cbn. rewrite !Hok. cbn. rewrite Hrows. cbn. rewrite Hok. cbn. rewrite Htx.
  reflexivity.
Qed.

(** When the [except] block returns, the chain is the genesis block alone
    and the store holds that block, its transaction, and nothing else. *)
Lemma init_except_result s s' :
  Blockchain.init_except s = (s', Return tt) ->
  Blockchain.chain (self s') = [genesis_block s]
  /\ store (world s')
     = genesis_store (genesis_block s) (Blockchain.genesis_tx (clock (world s))).
Proof.
  unfold Blockchain.init_except, bind.
  pose proof (reset_same_params s) as Hp.
  pose proof (@reset_result s) as Hreset.
  destruct (Blockchain._reset_blockchain s) as [s1 [[]|e]]; [|discriminate].
  cbn in Hp. specialize (Hreset s1 eq_refl).
  rewrite <- (genesis_block_params Hp). destruct Hp as [_ Hclock]. rewrite <- Hclock.
  intros Hinit. split.
  - destruct (initialize_result s1) as [[_ Hc] | [Hr _]];
      rewrite Hinit in *; cbn in *; [assumption | discriminate].
  - apply initialize_store in Hinit as (rows & txrows & Hrows & Htx & Hstore).
    rewrite Hreset in Hrows, Htx, Hstore. cbn in *.
    injection Hrows as <-. injection Htx as <-. exact Hstore.
Qed.

Lemma init_after_load_same_params loaded :
  keeps same_params (Blockchain.init_after_load loaded).
Proof.
  unfold Blockchain.init_after_load.
  keeps_go same_params_side
    ltac:(first [apply initialize_same_params | apply reset_same_params]).
Qed.

Lemma init_after_load_result loaded s s' :
  Blockchain.init_after_load loaded s = (s', Return tt) ->
  Blockchain.chain (self s') = [genesis_block s]
  \/ (loaded <> [] /\ is_chain_valid loaded = true /\ s' = s).
Proof.
  unfold Blockchain.init_after_load.
  destruct loaded as [|b loaded]; cbn [is_empty].
  - destruct (initialize_result s) as [[Hr Hc] | [Hr Hc]];
      destruct (Blockchain._initialize_new_chain s) as [s2 r]; cbn in *;
      intros H; inversion H; subst; [auto | discriminate].
  - destruct (is_chain_valid (b :: loaded)) eqn:Hv; cbn [negb].
    + intros H. inversion H; subst. right. repeat split; auto. discriminate.
    + intros H. left. now apply init_except_result in H.
Qed.

Lemma init_try_same_params : keeps same_params Blockchain.init_try.
Proof.
  unfold Blockchain.init_try.
  apply keeps_bind; [exact same_params_trans | apply init_db_same_params | intros _].
  apply keeps_bind; [exact same_params_trans | | intros loaded].
  - intros s. destruct (load_chain_same_but_trace s) as (Hs & _ & Hc).
    split; [now rewrite Hs | assumption].
  - apply keeps_bind; [exact same_params_trans | | intros _].
    + apply keeps_modify. intros s. split; reflexivity.
    + apply init_after_load_same_params.
Qed.

(** When the [try] block returns, the chain is the genesis block alone or
    a loaded chain that [is_chain_valid] accepts. *)
Lemma init_try_result s s' :
  Blockchain.init_try s = (s', Return tt) ->
  Blockchain.chain (self s') = [genesis_block s]
  \/ (Blockchain.chain (self s') <> []
      /\ is_chain_valid (Blockchain.chain (self s')) = true).
Proof.
  unfold Blockchain.init_try, bind, modify.
  pose proof (init_db_same_params s) as H0.
  destruct (Repo.init_db s) as [s0 [[]|e0]]; [|discriminate]. cbn in H0.
  pose proof (load_chain_same_but_trace s0) as (Hs & _ & Hc).
  destruct (Blockchain.load_chain s0) as [s1 [loaded|e1]]; [|discriminate].
  cbn in Hs, Hc.
  set (s1' := set_self (Blockchain.set_chain (fun _ => loaded)) s1).
  assert (Hp : same_params s s1').
  { destruct H0 as [Hd Hc0]. split; cbn.
    - rewrite Hs. exact Hd.
    - rewrite Hc. exact Hc0. }
  intros Hrun. apply init_after_load_result in Hrun as [Hg | (Hne & Hv & ->)].
  - left. now rewrite <- (genesis_block_params Hp).
  - right. cbn. auto.
Qed.

(** Without faults, the loop of [load_chain] reads the rows as
    [read_blocks] does. *)
Lemma load_blocks_reads rows n : forall idx acc s,
  (forall tr e, fault tr e = None) ->
  blocks_tbl (store (world s)) = Some rows ->
  snd (Blockchain.load_blocks n idx acc s) = Return (read_blocks rows n idx acc).
Proof.
  induction n as [|n IH]; intros idx acc s Hok Hrows;
    cbn [Blockchain.load_blocks read_blocks]; [reflexivity|].
  unfold Repo.get_block_by_index, bind, call, get, ret, raise. cbn.
  rewrite Hok. cbn. rewrite Hrows. cbn.
  destruct (option_map _ _) as [b|]; [|reflexivity].
  now apply IH.
Qed.

Lemma load_chain_reads rows s :
  (forall tr e, fault tr e = None) ->
  blocks_tbl (store (world s)) = Some rows ->
  snd (Blockchain.load_chain s)
  = Return match read_blocks rows (Z.to_nat (len rows)) 0 [] with
           | None => []
           | Some chain =>
               if is_empty chain || negb (is_chain_valid chain) then [] else chain
           end.
Proof.
  intros Hok Hrows.
  unfold Blockchain.load_chain, Repo.get_block_count, bind, call, get, ret, raise.
  cbn. rewrite Hok. cbn. rewrite Hrows. cbn.
  pose proof (@load_blocks_reads rows (Z.to_nat (len rows)) 0 []
                (log_event EvGetBlockCount s) Hok Hrows) as Hr.
  destruct (Blockchain.load_blocks _ _ _ _) as [s2 r]. cbn in Hr. subst r.
  destruct (read_blocks _ _ _ _) as [chain|]; [|reflexivity].
  destruct (is_empty chain || negb (is_chain_valid chain)); reflexivity.
Qed.

(** Construction when no call raises, in terms of what [load_chain]
    yields. *)
Lemma init_no_fault d w :
  (forall tr e, fault tr e = None) ->
  exists loaded,
    snd (Blockchain.load_chain
           (set_store Repo.create_tables
              (log_event EvInitDb (mkSys (Blockchain.mk d []) w))))
    = Return loaded
    /\ snd (Blockchain.__init__ d w) = Return tt
    /\ (loaded = [] ->
        exists rows txrows,
          blocks_tbl (Repo.create_tables (store w)) = Some rows
          /\ transactions_tbl (Repo.create_tables (store w)) = Some txrows
          /\ Blockchain.chain (self (fst (Blockchain.__init__ d w)))
             = [genesis_block (mkSys (Blockchain.mk d []) w)]
          /\ store (world (fst (Blockchain.__init__ d w)))
             = mkStore
                 (Some (rows ++ [(len rows + 1,
                                  genesis_block (mkSys (Blockchain.mk d []) w))]))
                 (Some (txrows ++ [(len rows + 1, Blockchain.genesis_tx (clock w))]))
                 (mempool_tbl (Repo.create_tables (store w)))
          /\ no_reset (mkSys (Blockchain.mk d []) w) (fst (Blockchain.__init__ d w)))
    /\ (loaded <> [] ->
        Blockchain.chain (self (fst (Blockchain.__init__ d w))) = loaded
        /\ store (world (fst (Blockchain.__init__ d w)))
           = Repo.create_tables (store w)).
Proof.
  intros Hok.
  set (start := mkSys (Blockchain.mk d []) w).
  set (s0 := set_store Repo.create_tables (log_event EvInitDb start)).
  assert (H0 : Repo.init_db start = (s0, Return tt)).
  { unfold Repo.init_db, bind, call, modify. now rewrite Hok. }
  destruct (blocks_tbl (store (world s0))) as [rows|] eqn:Hrows; [|discriminate].
  destruct (transactions_tbl (store (world s0))) as [txrows|] eqn:Htx; [|discriminate].
  pose proof (load_chain_reads s0 Hok Hrows) as Hloaded.
  pose proof (load_chain_result s0) as Hl.
  pose proof (load_chain_same_but_trace s0) as (Hs & Hst & Hc).
  pose proof (load_chain_no_reset s0) as Hquiet1.
  assert (Hquiet0 : no_reset start s0).
  { exists [EvInitDb]. split; [reflexivity|]. intros [Hin|[]]. discriminate. }
  unfold Blockchain.__init__, try_except, Blockchain.init_try, bind, modify.
  fold start. rewrite H0.
  destruct (Blockchain.load_chain s0) as [s1 r].
  cbn in Hs, Hst, Hc, Hl, Hloaded, Hquiet1.
  subst r. eexists. split; [reflexivity|].
  set (loaded := match read_blocks rows _ _ _ with None => [] | Some c => _ end) in *.
  specialize (Hl loaded eq_refl).
  unfold Blockchain.init_after_load.
  destruct loaded as [|b loaded]; cbn [is_empty].
  - set (s1' := set_self (Blockchain.set_chain (fun _ => [])) s1).
    assert (Hg : genesis_block s1' = genesis_block start).
    { unfold genesis_block, s1', start. cbn. now rewrite Hs, Hc. }
    assert (Hr : snd (Blockchain._initialize_new_chain s1') = Return tt).
    { apply (@initialize_returns s1' rows txrows Hok); cbn; now rewrite Hst. }
    destruct (initialize_result s1') as [[_ Hchain] | [Hr' _]]; [|congruence].
    pose proof (@initialize_store s1') as Hstore.
    pose proof (initialize_no_reset s1') as Hquiet2.
    destruct (Blockchain._initialize_new_chain s1') as [s2 r2]. cbn in *.
    subst r2. split; [reflexivity|]. split; [|intros Hne; now elim Hne].
    intros _. exists rows, txrows.
    destruct (Hstore s2 eq_refl) as (rows' & txrows' & Hrows' & Htx' & Hst2).
    rewrite Hst in Hrows', Htx'.
    change (blocks_tbl (Repo.create_tables (store w)) = Some rows) in Hrows.
    change (transactions_tbl (Repo.create_tables (store w)) = Some txrows) in Htx.
    assert (rows' = rows) by congruence. assert (txrows' = txrows) by congruence.
    subst rows' txrows'.
    cbn [fst]. split; [assumption|]. split; [assumption|]. split; [|split].
    + now rewrite Hchain, Hg.
    + rewrite Hst2, Hg, Hst, Hc. reflexivity.
    + eapply no_reset_trans; [exact Hquiet0|].
      eapply no_reset_trans; [exact Hquiet1|].
      eapply no_reset_trans; [apply (no_reset_self s1)|]. exact Hquiet2.
  - destruct Hl as [Hl | [_ Hv]]; [discriminate|]. rewrite Hv. cbn.
    split; [reflexivity|]. split; [discriminate|].
    intros _. split; [reflexivity | assumption].
Qed.

End StartUp.

Section StartUpProperties.
Context {C : Collaborators}.

(** C6: the genesis block is the mined candidate of index 0 and previous
    hash "0", it holds one transaction, from sender "0", of amount 0, whose
    payload is the marker of line 69, type "genesis" with its message, and
    it has no validator and no block signature; whenever [_create_genesis_block] returns a block it is that
    block, proof-of-work has been called on its candidate and its row is
    in the store; whenever [_initialize_new_chain] returns, the chain is
    that block alone; and it returns whenever no call raises and the block
    and transaction tables exist. *)
Theorem genesis_block_sole_member (s : Sys Blockchain.t) :
  let now := clock (world s) in
  let candidate := Blockchain.genesis_candidate now (Blockchain.difficulty (self s)) in
  let g := proof_of_work candidate in
  (index g = 0
   /\ previous_hash g = "0"
   /\ b_transactions g = [Blockchain.genesis_tx now]
   /\ sender (Blockchain.genesis_tx now) = "0"
   /\ amount (Blockchain.genesis_tx now) = 0
   /\ data (Blockchain.genesis_tx now)
      = [("type", "genesis"); ("message", "Initial block of the chain")]
   /\ In ("type", "genesis") (data (Blockchain.genesis_tx now))
   /\ nonce g = find_nonce candidate
   /\ validator g = None
   /\ block_signature g = None)
  /\ (forall s' b,
        Blockchain._create_genesis_block s = (s', Return b) ->
        b = g
        /\ In (EvProofOfWork candidate) (trace (world s'))
        /\ exists rows block_id,
             blocks_tbl (store (world s')) = Some (rows ++ [(block_id, b)]))
  /\ (forall s',
        Blockchain._initialize_new_chain s = (s', Return tt) ->
        Blockchain.chain (self s') = [g])
  /\ ((forall tr e, fault tr e = None) ->
      forall rows txrows,
        blocks_tbl (store (world s)) = Some rows ->
        transactions_tbl (store (world s)) = Some txrows ->
        snd (Blockchain._initialize_new_chain s) = Return tt
        /\ Blockchain.chain (self (fst (Blockchain._initialize_new_chain s))) = [g]).
Proof.
  intros now candidate g.
  split; [repeat split; now left|]. split; [|split].
  - intros s' b Hb. now apply create_genesis_result.
  - intros s' Hs'.
    destruct (initialize_result s) as [[_ Hc] | [Hr _]];
      rewrite Hs' in *; cbn in *; [assumption | discriminate].
  - intros Hok rows txrows Hrows Htx.
    pose proof (initialize_returns s Hok Hrows Htx) as Hr.
    split; [assumption|].
    destruct (initialize_result s) as [[_ Hc] | [Hr' _]]; [assumption | congruence].
Qed.

(** C3, what the code does.  Whenever construction completes, the
    in-memory chain is the genesis block alone or a loaded chain that
    [is_chain_valid] accepts, so it is valid as soon as [is_chain_valid]
    accepts a mined genesis block; and when the [try] block raises and
    construction completes, the tables have been dropped: the store holds
    the fresh genesis block and its transaction, nothing else.  But when
    no call raises and loading yields the empty sequence, because the
    store holds no block, or lacks one of the blocks 0 .. count-1, or
    holds a sequence that [is_chain_valid] rejects, the constructor
    performs no reset, against the comment and the warning of lines 27-29:
    [load_chain] has replaced the rejected sequence by the empty one
    (line 107-109), line 24 takes it for a missing chain, no table is
    dropped, and the fresh genesis block and its transaction are added to
    the rows already in the store, the rejected blocks and the [mempool]
    rows included.  A non-empty sequence that [is_chain_valid] accepts
    becomes the chain, the store untouched. *)
Theorem init_recovers_to_genesis (d : Z) (w : World) :
  let start := mkSys (Blockchain.mk d []) w in
  let g := genesis_block start in
  let s' := fst (Blockchain.__init__ d w) in
  (snd (Blockchain.__init__ d w) = Return tt ->
   (Blockchain.chain (self s') = [g]
    \/ (Blockchain.chain (self s') <> []
        /\ is_chain_valid (Blockchain.chain (self s')) = true))
   /\ (is_chain_valid [g] = true ->
       is_chain_valid (Blockchain.chain (self s')) = true))
  /\ (forall e,
        snd (Blockchain.init_try start) = Raise e ->
        snd (Blockchain.__init__ d w) = Return tt ->
        Blockchain.chain (self s') = [g]
        /\ store (world s') = genesis_store g (Blockchain.genesis_tx (clock w)))
  /\ ((forall tr e, fault tr e = None) ->
      forall rows txrows,
        blocks_tbl (Repo.create_tables (store w)) = Some rows ->
        transactions_tbl (Repo.create_tables (store w)) = Some txrows ->
        snd (Blockchain.__init__ d w) = Return tt
        /\ (read_blocks rows (Z.to_nat (len rows)) 0 [] = None
            \/ read_blocks rows (Z.to_nat (len rows)) 0 [] = Some []
            \/ (exists rejected,
                  read_blocks rows (Z.to_nat (len rows)) 0 [] = Some rejected
                  /\ is_chain_valid rejected = false) ->
            Blockchain.chain (self s') = [g]
            /\ store (world s')
               = mkStore (Some (rows ++ [(len rows + 1, g)]))
                         (Some (txrows ++ [(len rows + 1,
                                            Blockchain.genesis_tx (clock w))]))
                         (mempool_tbl (Repo.create_tables (store w)))
            /\ exists evs, trace (world s') = trace w ++ evs
                           /\ ~ In EvDropTables evs)
        /\ (forall loaded,
              read_blocks rows (Z.to_nat (len rows)) 0 [] = Some loaded ->
              loaded <> [] ->
              is_chain_valid loaded = true ->
              Blockchain.chain (self s') = loaded
              /\ store (world s') = Repo.create_tables (store w))).
Proof.
  intros start g s'.
  assert (Hrun : Blockchain.__init__ d w
                 = match Blockchain.init_try start with
                   | (s1, Return a) => (s1, Return a)
                   | (s1, Raise _) => Blockchain.init_except s1
                   end) by reflexivity.
  pose proof (init_try_same_params start) as Hp.
  pose proof (@init_try_result C start) as Htry.
  split; [|split].
  - intros Hr.
    assert (Hcases :
      Blockchain.chain (self s') = [g]
      \/ (Blockchain.chain (self s') <> []
          /\ is_chain_valid (Blockchain.chain (self s')) = true)).
    { unfold s'. rewrite Hrun in *.
      destruct (Blockchain.init_try start) as [s1 [[]|e]]; cbn in Hp.
      - now apply Htry.
      - left. unfold g. rewrite <- (genesis_block_params Hp).
        apply init_except_result.
        destruct (Blockchain.init_except s1) as [s2 r]. cbn in Hr. now subst. }
    split; [exact Hcases|].
    intros Hg. destruct Hcases as [Hc | [_ Hv]]; [now rewrite Hc | assumption].
  - intros e He Hr. unfold s'. rewrite Hrun in *.
    destruct (Blockchain.init_try start) as [s1 [[]|e1]]; cbn in Hp, He;
      [discriminate|].
    unfold g. rewrite <- (genesis_block_params Hp).
    destruct Hp as [_ Hclock]. change (clock w) with (clock (world start)).
    rewrite <- Hclock.
    apply init_except_result.
    destruct (Blockchain.init_except s1) as [s2 r]. cbn in Hr. now subst.
  - intros Hok rows txrows Hrows Htx.
    destruct (init_no_fault d w Hok) as (loaded & Hloaded & Hr & Hempty & Hkept).
    pose proof (@load_chain_reads C rows
                  (set_store Repo.create_tables (log_event EvInitDb start))
                  Hok Hrows) as Hreads.
    fold start in Hloaded. rewrite Hreads in Hloaded.
    injection Hloaded as Hloaded.
    split; [exact Hr|]. split.
    + intros Hraw.
      assert (Hnil : loaded = []).
      { destruct Hraw as [Hraw | [Hraw | (rejected & Hraw & Hv)]];
          rewrite Hraw in Hloaded; [now subst | now subst |].
        rewrite Hv, orb_true_r in Hloaded. now subst. }
      destruct (Hempty Hnil)
        as (rows' & txrows' & Hrows' & Htx' & Hchain & Hstore & Hquiet).
      assert (rows' = rows) by congruence. assert (txrows' = txrows) by congruence.
      subst rows' txrows'. repeat split; assumption.
    + intros chain Hraw Hne Hv. rewrite Hraw in Hloaded.
      destruct chain as [|b chain]; [congruence|].
      cbn [is_empty] in Hloaded. rewrite Hv in Hloaded. cbn in Hloaded.
      subst loaded. apply Hkept. discriminate.
Qed.

End StartUpProperties.

(** ** The chain manager on concrete inputs *)

Lemma init_recovers_to_genesis_witness :
  let boot := fun C st => fst (Blockchain.__init__ (C := C) 4 (Testbed.world_of st 0)) in
  (is_chain_valid (Collaborators := Testbed.reliable) [Testbed.forged_block] = false
   /\ Blockchain.chain (self (boot Testbed.reliable Testbed.store_forged))
      = [Testbed.genesis_at 4]
   /\ store (world (boot Testbed.reliable Testbed.store_forged))
      = mkStore (Some [(1, Testbed.forged_block); (2, Testbed.genesis_at 4)])
                (Some [(1, Testbed.tx_b); (2, Testbed.genesis_tx0)])
                (Some [Testbed.tx_a])
   /\ ~ In EvDropTables (trace (world (boot Testbed.reliable Testbed.store_forged))))
  /\ (Blockchain.chain (self (boot Testbed.reliable Testbed.store_stale))
      = [Testbed.genesis_at 4]
      /\ store (world (boot Testbed.reliable Testbed.store_stale))
         = mkStore (Some [(1, Testbed.stray_block); (2, Testbed.genesis_at 4)])
                   (Some [(1, Testbed.tx_b); (2, Testbed.genesis_tx0)])
                   (Some [Testbed.tx_a])
      /\ ~ In EvDropTables (trace (world (boot Testbed.reliable Testbed.store_stale))))
  /\ store (world (boot (Testbed.failing Testbed.is_block_count) Testbed.store_stale))
     = genesis_store (Testbed.genesis_at 4) Testbed.genesis_tx0.
Proof.
  cbv zeta. split; [|split].
  - destruct (init_recovers_to_genesis (C := Testbed.reliable) 4
                (Testbed.world_of Testbed.store_forged 0)) as (_ & _ & Hrun).
    destruct (Hrun (fun _ _ => eq_refl) [(1, Testbed.forged_block)]
                [(1, Testbed.tx_b)] eq_refl eq_refl) as (_ & Hempty & _).
    destruct Hempty as (Hchain & Hstore & evs & Hevs & Hquiet).
    { right. right. exists [Testbed.forged_block]. split; reflexivity. }
    split; [reflexivity|]. split; [exact Hchain|]. split; [exact Hstore|].
    rewrite Hevs. exact Hquiet.
  - destruct (init_recovers_to_genesis (C := Testbed.reliable) 4
                (Testbed.world_of Testbed.store_stale 0)) as (_ & _ & Hrun).
    destruct (Hrun (fun _ _ => eq_refl) [(1, Testbed.stray_block)]
                [(1, Testbed.tx_b)] eq_refl eq_refl) as (_ & Hempty & _).
    destruct (Hempty (or_introl eq_refl)) as (Hchain & Hstore & evs & Hevs & Hquiet).
    split; [exact Hchain|]. split; [exact Hstore|].
    rewrite Hevs. exact Hquiet.
  - destruct (init_recovers_to_genesis (C := Testbed.failing Testbed.is_block_count) 4
                (Testbed.world_of Testbed.store_stale 0)) as (_ & Hraise & _).
    destruct (Hraise (OtherError "disk I/O error") eq_refl eq_refl) as [_ Hstore].
    exact Hstore.
Defined.

Lemma genesis_block_sole_member_witness :
  let start := mkSys (Blockchain.mk 4 []) (Testbed.world_of Testbed.empty_store 0) in
  (snd (Blockchain._initialize_new_chain (C := Testbed.reliable) start) = Return tt
   /\ Blockchain.chain
        (self (fst (Blockchain._initialize_new_chain (C := Testbed.reliable) start)))
      = [Testbed.genesis_at 4])
  /\ map data (b_transactions (Testbed.genesis_at 4))
     = [[("type", "genesis"); ("message", "Initial block of the chain")]].
Proof.
  cbv zeta.
  destruct (genesis_block_sole_member (C := Testbed.reliable)
              (mkSys (Blockchain.mk 4 []) (Testbed.world_of Testbed.empty_store 0)))
    as ((_ & _ & _ & _ & _ & Hdata & _) & _ & _ & Hrun).
  split.
  - apply (Hrun (fun _ _ => eq_refl) [] []); reflexivity.
  - rewrite <- Hdata. reflexivity.
Defined.

Lemma add_block_guards_and_candidate_witness :
  Blockchain.add_block (C := Testbed.reliable) [] Testbed.key1 Testbed.light_node
  = (Testbed.light_node, Return None)
  /\ index (Blockchain.candidate_block (Testbed.genesis_of 1) 0 [Testbed.tx_a] 1)
     = index (Testbed.genesis_of 1) + 1
  /\ previous_hash (Blockchain.candidate_block (Testbed.genesis_of 1) 0 [Testbed.tx_a] 1)
     = hash (Testbed.genesis_of 1).
Proof.
  split.
  - apply (proj1 (add_block_guards_and_candidate (C := Testbed.reliable) []
                    Testbed.key1 Testbed.light_node)).
    left. reflexivity.
  - destruct (proj2 (add_block_guards_and_candidate (C := Testbed.reliable)
                       [Testbed.tx_a] Testbed.key1 Testbed.light_node)
                    [] (Testbed.genesis_of 1))
      as (Hidx & Hprev & _).
    + discriminate.
    + reflexivity.
    + split; [exact Hidx | exact Hprev].
Defined.

Lemma add_block_appends_after_persist_witness :
  (snd (Blockchain.add_block (C := Testbed.failing Testbed.is_save_bulk)
          [Testbed.tx_a] Testbed.key1 Testbed.light_node)
   = Return None
   /\ Blockchain.chain
        (self (fst (Blockchain.add_block (C := Testbed.failing Testbed.is_save_bulk)
                      [Testbed.tx_a] Testbed.key1 Testbed.light_node)))
      = Blockchain.chain (self Testbed.light_node))
  /\ (let new_block :=
        sealed_block (C := Testbed.reliable) (Testbed.genesis_of 1) 0 [Testbed.tx_a] 1
          Testbed.key1 in
      snd (Blockchain.add_block (C := Testbed.reliable) [Testbed.tx_a] Testbed.key1
             Testbed.light_node)
      = Return (Some new_block)
      /\ Blockchain.chain
           (self (fst (Blockchain.add_block (C := Testbed.reliable) [Testbed.tx_a]
                         Testbed.key1 Testbed.light_node)))
         = [Testbed.genesis_of 1; new_block]).
Proof.
  split.
  - destruct (add_block_appends_after_persist (C := Testbed.failing Testbed.is_save_bulk)
                [Testbed.tx_a] Testbed.key1 Testbed.light_node) as (_ & _ & Hfail & _).
    destruct (Hfail (Testbed.genesis_of 1)
                (fst (Blockchain.add_block (C := Testbed.failing Testbed.is_save_bulk)
                        [Testbed.tx_a] Testbed.key1 Testbed.light_node))
                (OtherError "disk I/O error")) as [Hrun Hchain].
    + discriminate.
    + reflexivity.
    + reflexivity.
    + reflexivity.
    + reflexivity.
    + rewrite Hrun. split; [reflexivity | exact Hchain].
  - destruct (add_block_appends_after_persist (C := Testbed.reliable)
                [Testbed.tx_a] Testbed.key1 Testbed.light_node)
      as (_ & _ & _ & _ & Hsuccess).
    apply (Hsuccess (fun _ _ => eq_refl) (Testbed.genesis_of 1) [] []);
      [discriminate | reflexivity | reflexivity | reflexivity].
Defined.

(** * Further properties *)

(** ** Admission *)

Section Admission.
Context {C : Collaborators}.

(** What [True] from [add_transaction] says: the hash was the content
    hash, the key was new, and the entry is now the last of the mapping. *)
Lemma add_transaction_true tx s :
  snd (Mempool.add_transaction tx s) = Return true ->
  String.eqb (tx_hash tx) "" || negb (String.eqb (tx_hash tx) (calculate_hash tx))
  = false
  /\ dict_mem (tx_hash tx) (Mempool.transactions (self s)) = false
  /\ Mempool.transactions (self (fst (Mempool.add_transaction tx s)))
     = Mempool.transactions (self s) ++ [(tx_hash tx, tx)]
  /\ Mempool.max_size (self (fst (Mempool.add_transaction tx s)))
     = Mempool.max_size (self s).
Proof.
  unfold Mempool.add_transaction, try_except, bind, get, call, modify, ret. cbn.
  destruct (_ || _); cbn; [discriminate|].
  destruct (dict_mem _ _) eqn:Hmem; cbn; [discriminate|].
  destruct (len _ >=? _); cbn; [discriminate|].
  destruct (fault _ _); cbn; [discriminate|].
  match goal with |- context [Mempool.persist tx ?s1] =>
    pose proof (persist_same_self tx s1) as Hp;
    destruct (Mempool.persist tx s1) as [s2 [[]|e]] end;
    cbn in *; [|discriminate].
  intros _. unfold same_self in Hp. rewrite Hp. cbn.
  now rewrite dict_set_fresh.
Qed.

(** X1: [add_transaction] never raises: whatever the transaction, the state
    and the failures of the peer-to-peer layer and of the store, it
    returns [True] or [False]. *)
Theorem add_transaction_never_raises (tx : Transaction) (s : Sys Mempool.t) :
  snd (Mempool.add_transaction tx s) = Return true
  \/ snd (Mempool.add_transaction tx s) = Return false.
Proof.
  unfold Mempool.add_transaction, try_except.
  match goal with |- context [bind ?m ?k s] =>
    destruct (bind m k s) as [s1 [[|]|e]] end; cbn; auto.
Qed.

(** X2: a transaction without a hash, with a hash that is not its content
    hash, or with a hash already in the mapping is rejected before
    anything is done: [False], and the object, the store and the trace of
    calls are as they were, so nothing is broadcast. *)
Theorem add_transaction_rejects_untouched (tx : Transaction) (s : Sys Mempool.t) :
  tx_hash tx = ""
  \/ tx_hash tx <> calculate_hash tx
  \/ In (tx_hash tx) (dict_keys (Mempool.transactions (self s))) ->
  Mempool.add_transaction tx s = (s, Return false).
Proof.
  intros H.
  unfold Mempool.add_transaction, try_except, bind, get, ret. cbn.
  destruct (String.eqb_spec (tx_hash tx) ""); cbn; [reflexivity|].
  destruct (String.eqb_spec (tx_hash tx) (calculate_hash tx)); cbn; [|reflexivity].
  destruct H as [H | [H | H]]; try contradiction.
  apply dict_mem_true_iff in H. now rewrite H.
Qed.

(** X3: when the broadcast raises, [add_transaction] returns [False] with
    the mapping and the store as they were: the broadcast is the only call
    made, the store is not even opened. *)
Theorem add_transaction_broadcast_failure (tx : Transaction) (s : Sys Mempool.t)
    (e : exn) :
  tx_hash tx <> "" ->
  tx_hash tx = calculate_hash tx ->
  ~ In (tx_hash tx) (dict_keys (Mempool.transactions (self s))) ->
  len (Mempool.transactions (self s)) < Mempool.max_size (self s) ->
  fault (trace (world s)) (EvBroadcast tx) = Some e ->
  Mempool.add_transaction tx s = (log_event (EvBroadcast tx) s, Return false).
Proof.
  intros Hne Hhash Hfresh Hroom Hcast.
  unfold Mempool.add_transaction, try_except, bind, get, call, ret. cbn.
  destruct (String.eqb_spec (tx_hash tx) ""); [contradiction|]. cbn.
  destruct (String.eqb_spec (tx_hash tx) (calculate_hash tx)); [|contradiction]. cbn.
  apply dict_mem_false_iff in Hfresh. rewrite Hfresh. cbn.
  destruct (Z.geb_spec (len (Mempool.transactions (self s)))
                       (Mempool.max_size (self s))); [lia|].
  cbn. now rewrite Hcast.
Qed.

(** X4: a transaction that has been admitted is refused when submitted
    again: the second call returns [False] and changes nothing, so a hash
    is admitted once and broadcast once. *)
Theorem add_transaction_twice (tx : Transaction) (s : Sys Mempool.t) :
  snd (Mempool.add_transaction tx s) = Return true ->
  Mempool.add_transaction tx (fst (Mempool.add_transaction tx s))
  = (fst (Mempool.add_transaction tx s), Return false).
Proof.
  intros Hok. apply add_transaction_true in Hok as (Hhash & _ & Hmap & _).
  set (s1 := fst (Mempool.add_transaction tx s)) in *.
  unfold Mempool.add_transaction at 1, try_except, bind, get, ret. cbn.
  rewrite Hhash. cbn.
  assert (Hmem : dict_mem (tx_hash tx) (Mempool.transactions (self s1)) = true).
  { apply dict_mem_true_iff. rewrite Hmap, map_app. apply in_or_app. right. now left. }
  now rewrite Hmem.
Qed.

End Admission.

(** ** Removal *)

Lemma dict_del_absent V (h : string) (d : dict V) :
  dict_mem h d = false -> dict_del h d = d.
Proof.
  unfold dict_del. induction d as [|p d IH]; cbn; auto.
  intros H. apply orb_false_iff in H as [H1 H2]. rewrite H1. cbn. now rewrite IH.
Qed.

Lemma without_keys_In V (hs : list string) (d : dict V) p :
  In p (without_keys hs d) <-> In p d /\ ~ In (fst p) hs.
Proof.
  unfold without_keys. rewrite filter_In, negb_true_iff. split; intros [Hin Hk]; split; auto.
  - intros Hh. apply not_true_iff_false in Hk. apply Hk.
    apply existsb_exists. exists (fst p). split; [assumption | apply String.eqb_refl].
  - apply not_true_is_false. intros Hex. apply existsb_exists in Hex as [k [Hk1 Hk2]].
    apply String.eqb_eq in Hk2. subst k. contradiction.
Qed.

Lemma without_keys_twice V (hs hs' : list string) (d : dict V) :
  incl hs' hs -> without_keys hs' (without_keys hs d) = without_keys hs d.
Proof.
  intros Hincl. unfold without_keys at 1.
  rewrite <- (filter_all (without_keys hs d)) at 2.
  apply filter_ext_in. intros p Hp. apply without_keys_In in Hp as [_ Hk].
  apply negb_true_iff. apply not_true_is_false. intros Hex.
  apply existsb_exists in Hex as [k [Hk1 Hk2]]. apply String.eqb_eq in Hk2. subst k.
  apply Hk. now apply Hincl.
Qed.

Lemma incl_firstn A k (l : list A) : incl (firstn k l) l.
Proof.
  intros x Hx. rewrite <- (firstn_skipn k l). apply in_or_app. now left.
Qed.

Section Removal.
Context {C : Collaborators}.

Lemma remove_transactions_eq hs s :
  Mempool.remove_transactions hs s
  = match call EvConnect s with
    | (s1, Raise x) => (s1, Raise x)
    | (s1, Return _) =>
        match for_each hs remove_step s1 with
        | (s2, Return _) =>
            match call EvCommit s2 with
            | (s3, Return a) => (s3, Return a)
            | (s3, Raise x) => (set_store (fun _ => store (world s1)) s3, Raise x)
            end
        | (s2, Raise x) => (set_store (fun _ => store (world s1)) s2, Raise x)
        end
    end.
Proof.
  change (Mempool.remove_transactions hs s)
    with (with_db (for_each hs remove_step ;; call EvCommit) s).
  unfold with_db, bind.
  destruct (call EvConnect s) as [s1 [[]|x]]; auto.
  destruct (for_each hs remove_step s1) as [s2 [[]|x]]; auto.
Qed.

(** A turn of the loop takes its key out of the mapping, present or not,
    whatever happens to the [DELETE] that follows. *)
Lemma remove_step_self h s :
  Mempool.transactions (self (fst (remove_step h s)))
  = dict_del h (Mempool.transactions (self s))
  /\ Mempool.max_size (self (fst (remove_step h s))) = Mempool.max_size (self s).
Proof.
  unfold remove_step, Mempool.del_transaction, Mempool.delete_row, bind, get,
    call, modify, ret, raise.
  cbn. destruct (dict_mem h (Mempool.transactions (self s))) eqn:Hmem; cbn.
  - rewrite Hmem. cbn. destruct (fault _ _); cbn; auto.
    destruct (mempool_tbl _); cbn; auto.
  - rewrite (dict_del_absent _ _ Hmem).
    destruct (fault _ _); cbn; auto.
    destruct (mempool_tbl _); cbn; auto.
Qed.

Lemma remove_loop_prefix hs : forall s,
  exists k,
    Mempool.transactions (self (fst (for_each hs remove_step s)))
    = fold_left (fun d h => dict_del h d) (firstn k hs)
                (Mempool.transactions (self s))
    /\ (snd (for_each hs remove_step s) = Return tt -> firstn k hs = hs).
Proof.
  induction hs as [|h hs IH]; intros s.
  - exists 0%nat. cbn. auto.
  - rewrite for_each_cons.
    destruct (remove_step_self h s) as [Hdel _].
    destruct (remove_step h s) as [s1 [[]|e]]; cbn in *.
    + destruct (IH s1) as [k [Hk Hall]].
      exists (S k). cbn. rewrite <- Hdel. split; [assumption|].
      intros Hr. now rewrite (Hall Hr).
    + exists 1%nat. cbn. split; [assumption | discriminate].
Qed.

Lemma remove_transactions_prefix hs s :
  exists k,
    Mempool.transactions (self (fst (Mempool.remove_transactions hs s)))
    = without_keys (firstn k hs) (Mempool.transactions (self s))
    /\ (snd (Mempool.remove_transactions hs s) = Return tt -> firstn k hs = hs).
Proof.
  rewrite remove_transactions_eq.
  unfold call. destruct (fault (trace (world s)) EvConnect); cbn.
  - exists 0%nat. cbn. split; [|discriminate].
    unfold without_keys. cbn. now rewrite filter_all.
  - destruct (remove_loop_prefix hs (log_event EvConnect s)) as [k [Hk Hall]].
    rewrite fold_dict_del in Hk.
    destruct (for_each hs remove_step (log_event EvConnect s)) as [s1 [[]|e]];
      cbn in *.
    + exists k. destruct (fault _ _); cbn; auto.
    + exists k. split; [assumption | discriminate].
Qed.

(** Without faults and with the table in place, the loop runs to its end
    and has asked for one [DELETE] per key. *)
Lemma remove_loop_trace hs : forall s,
  (forall tr e, fault tr e = None) ->
  mempool_tbl (store (world s)) <> None ->
  snd (for_each hs remove_step s) = Return tt
  /\ trace (world (fst (for_each hs remove_step s)))
     = trace (world s) ++ map EvDeleteMempool hs
  /\ mempool_tbl (store (world (fst (for_each hs remove_step s)))) <> None.
Proof.
  induction hs as [|h hs IH]; intros s Hok Htbl.
  - cbn. rewrite app_nil_r. auto.
  - rewrite for_each_cons.
    assert (Hstep : exists m rows,
               remove_step h s
               = (set_store (fun st => mkStore (blocks_tbl st) (transactions_tbl st)
                                         (Some rows))
                    (log_event (EvDeleteMempool h) (set_self (fun _ => m) s)),
                  Return tt)).
    { unfold remove_step, Mempool.del_transaction, Mempool.delete_row, bind, get,
        call, modify, ret, raise.
      cbn. destruct (mempool_tbl (store (world s))) as [rows|] eqn:Hrows; [|congruence].
      destruct (dict_mem h (Mempool.transactions (self s))) eqn:Hmem; cbn.
      - rewrite Hmem. cbn. rewrite Hok. cbn. rewrite Hrows.
        eexists (Mempool.set_transactions (dict_del h) (self s)), _. reflexivity.
      - rewrite Hok. cbn. rewrite Hrows.
        exists (self s). eexists. destruct s as [m w]. reflexivity. }
    destruct Hstep as (m & rows & Hstep). rewrite Hstep.
    destruct (IH (set_store (fun st => mkStore (blocks_tbl st) (transactions_tbl st)
                                         (Some rows))
                    (log_event (EvDeleteMempool h) (set_self (fun _ => m) s))) Hok)
      as (Hr & Htr & Ht); [cbn; discriminate|].
    split; [assumption|]. split; [|assumption].
    rewrite Htr. cbn. now rewrite <- app_assoc.
Qed.

(** X5: [remove_transactions] takes nothing out of the mapping but entries
    with a listed hash, and adds none; when it returns, the mapping is the
    old one without the entries whose hash is listed, hashes that are not
    in the mapping being ignored, and a second run removes nothing more. *)
Theorem remove_transactions_exact (hs : list string) (s : Sys Mempool.t) :
  let s1 := fst (Mempool.remove_transactions hs s) in
  (forall p, In p (Mempool.transactions (self s)) -> ~ In (fst p) hs ->
             In p (Mempool.transactions (self s1)))
  /\ (forall p, In p (Mempool.transactions (self s1)) ->
                In p (Mempool.transactions (self s)))
  /\ (snd (Mempool.remove_transactions hs s) = Return tt ->
      Mempool.transactions (self s1) = without_keys hs (Mempool.transactions (self s))
      /\ Mempool.transactions (self (fst (Mempool.remove_transactions hs s1)))
         = Mempool.transactions (self s1)).
Proof.
  intros s1. destruct (remove_transactions_prefix hs s) as [k [Hk Hall]].
  fold s1 in Hk. split; [|split].
  - intros p Hp Hnot. rewrite Hk. apply without_keys_In. split; [assumption|].
    intros Hin. apply Hnot. now apply (incl_firstn k hs).
  - intros p Hp. rewrite Hk in Hp. now apply without_keys_In in Hp.
  - intros Hr. rewrite (Hall Hr) in Hk. split; [assumption|].
    destruct (remove_transactions_prefix hs s1) as [k1 [Hk1 _]].
    rewrite Hk1, Hk. apply without_keys_twice. apply incl_firstn.
Qed.

(** X6: when no call to the store raises and the [mempool] table exists,
    [remove_transactions] returns, and the store has been asked for one
    [DELETE] per listed hash, in the order of the list, whether the hash
    was in the mapping or not, between one connection and one commit. *)
Theorem remove_transactions_deletes_each (hs : list string) (s : Sys Mempool.t) :
  (forall tr e, fault tr e = None) ->
  mempool_tbl (store (world s)) <> None ->
  snd (Mempool.remove_transactions hs s) = Return tt
  /\ trace (world (fst (Mempool.remove_transactions hs s)))
     = trace (world s) ++ EvConnect :: map EvDeleteMempool hs ++ [EvCommit].
Proof.
  intros Hok Htbl. rewrite remove_transactions_eq.
  unfold call. rewrite Hok.
  destruct (@remove_loop_trace hs (log_event EvConnect s) Hok) as (Hr & Htr & _);
    [exact Htbl|].
  destruct (for_each hs remove_step (log_event EvConnect s)) as [s1 [[]|e]];
    cbn in *; [|discriminate].
  rewrite Hok. cbn. split; [reflexivity|].
  rewrite Htr, <- !app_assoc. reflexivity.
Qed.

(** X7: an admission followed by the removal of the admitted hash leaves
    the mapping as it was before the admission. *)
Theorem add_then_remove_restores (tx : Transaction) (s : Sys Mempool.t) :
  snd (Mempool.add_transaction tx s) = Return true ->
  snd (Mempool.remove_transactions [tx_hash tx] (fst (Mempool.add_transaction tx s)))
  = Return tt ->
  Mempool.transactions
    (self (fst (Mempool.remove_transactions [tx_hash tx]
                  (fst (Mempool.add_transaction tx s)))))
  = Mempool.transactions (self s).
Proof.
  intros Hadd Hrem.
  apply add_transaction_true in Hadd as (_ & Hfresh & Hmap & _).
  destruct (remove_transactions_prefix [tx_hash tx]
              (fst (Mempool.add_transaction tx s))) as [k [Hk Hall]].
  rewrite Hk, (Hall Hrem), Hmap. unfold without_keys.
  rewrite filter_app. cbn. rewrite String.eqb_refl. cbn. rewrite app_nil_r.
  rewrite <- (filter_all (Mempool.transactions (self s))) at 2.
  apply filter_ext_in. intros p Hp. cbn. rewrite orb_false_r.
  apply negb_true_iff. apply String.eqb_neq. intros Heq.
  apply dict_mem_false_iff in Hfresh. apply Hfresh. rewrite <- Heq.
  now apply in_map.
Qed.

(** X8: when the connection to the store cannot be opened,
    [remove_transactions] and [clear_expired] raise the exception of the
    connection and have done nothing else: the mapping is as it was.
    [clear_expired] has tested the entries before it connects (lines
    107-110), so a timestamp too large for a float makes it raise
    [OverflowError] there, without so much as connecting. *)
Theorem removal_needs_connection (hs : list string) (ttl : Z) (s : Sys Mempool.t)
    (e : exn) :
  fault (trace (world s)) EvConnect = Some e ->
  Mempool.remove_transactions hs s = (log_event EvConnect s, Raise e)
  /\ Mempool.clear_expired ttl s
     = match Mempool.expired_keys (time_time (world s)) ttl
               (Mempool.transactions (self s)) with
       | Return _ => (log_event EvConnect s, Raise e)
       | Raise x => (s, Raise x)
       end.
Proof.
  intros Hc. rewrite remove_transactions_eq, clear_expired_eq.
  unfold call. rewrite Hc. split; [reflexivity|].
  now destruct (Mempool.expired_keys _ _ _).
Qed.

End Removal.

(** ** Expiry calls, selection, construction *)

Lemma insert_by_timestamp_stamped t x l :
  stamped t (insert_by_timestamp x l)
  = if timestamp x =? t then x :: stamped t l else stamped t l.
Proof.
  unfold stamped. induction l as [|y l IH]; cbn.
  - destruct (timestamp x =? t); reflexivity.
  - destruct (Z.leb_spec (timestamp x) (timestamp y)) as [Hle|Hgt]; cbn.
    + destruct (timestamp x =? t); reflexivity.
    + rewrite IH.
      destruct (Z.eqb_spec (timestamp x) t), (Z.eqb_spec (timestamp y) t);
        try reflexivity.
      lia.
Qed.

(** The sort is stable: transactions with one timestamp keep their order. *)
Lemma sorted_by_timestamp_stamped t l :
  stamped t (sorted_by_timestamp l) = stamped t l.
Proof.
  induction l as [|x l IH]; cbn [sorted_by_timestamp]; [reflexivity|].
  rewrite insert_by_timestamp_stamped, IH. unfold stamped. cbn.
  destruct (timestamp x =? t); reflexivity.
Qed.

Section Selection.
Context {C : Collaborators}.

Lemma expire_loop_trace hs : forall s,
  (forall tr e, fault tr e = None) ->
  NoDup hs ->
  (forall h, In h hs -> dict_mem h (Mempool.transactions (self s)) = true) ->
  mempool_tbl (store (world s)) <> None ->
  trace (world (fst (for_each hs Mempool.expire_step s)))
  = trace (world s) ++ map EvDeleteMempool hs.
Proof.
  induction hs as [|h hs IH]; intros s Hok Hnd Hmem Htbl.
  - cbn. now rewrite app_nil_r.
  - inversion Hnd as [|? ? Hnotin Hnd']; subst.
    rewrite for_each_cons.
    assert (Hstep : exists rows,
               Mempool.expire_step h s
               = (set_store (fun st => mkStore (blocks_tbl st) (transactions_tbl st)
                                         (Some rows))
                    (log_event (EvDeleteMempool h)
                       (set_self (Mempool.set_transactions (dict_del h)) s)),
                  Return tt)).
    { unfold Mempool.expire_step, Mempool.del_transaction, Mempool.delete_row, bind,
        get, call, modify, raise.
      cbn. rewrite (Hmem h (or_introl eq_refl)). cbn. rewrite Hok. cbn.
      destruct (mempool_tbl (store (world s))) as [rows|] eqn:Hrows; [|congruence].
      eexists. reflexivity. }
    destruct Hstep as [rows Hstep]. rewrite Hstep.
    rewrite IH; auto; cbn; [now rewrite <- app_assoc | | discriminate].
    intros h' Hin. specialize (Hmem h' (or_intror Hin)).
    apply dict_mem_true_iff in Hmem. apply dict_mem_true_iff.
    apply in_map_iff in Hmem as [p [Hp Hpin]]. apply in_map_iff.
    exists p. split; auto. unfold dict_del. apply filter_In. split; auto.
    apply negb_true_iff. apply String.eqb_neq. intros Heq. apply Hnotin. congruence.
Qed.

(** X9: when no call to the store raises and the [mempool] table exists,
    [clear_expired] asks the store to delete exactly the hashes the
    comprehension of lines 107-110 has listed, which are the keys of the
    entries whose float test of line 109 is true: one [DELETE] each in
    the order of the mapping, between one connection and one commit.
    When a test raises, a timestamp being too large for a float, the call
    raises that exception and has not turned to the store. *)
Theorem clear_expired_deletes_each (ttl : Z) (s : Sys Mempool.t) :
  (forall tr e, fault tr e = None) ->
  dict_wf (Mempool.transactions (self s)) ->
  mempool_tbl (store (world s)) <> None ->
  match Mempool.expired_keys (time_time (world s)) ttl
          (Mempool.transactions (self s)) with
  | Return hs =>
      trace (world (fst (Mempool.clear_expired ttl s)))
      = trace (world s) ++ EvConnect :: map EvDeleteMempool hs ++ [EvCommit]
      /\ forall h, In h hs <->
           exists tx, In (h, tx) (Mempool.transactions (self s))
                      /\ Mempool.is_expired (time_time (world s)) ttl tx = Return true
  | Raise e => Mempool.clear_expired ttl s = (s, Raise e)
  end.
Proof.
  intros Hok Hwf Htbl. rewrite clear_expired_eq.
  destruct (Mempool.expired_keys _ _ _) as [hs|x] eqn:Hkeys; [|reflexivity].
  apply expired_keys_Return in Hkeys as [-> Htests].
  set (hs := expired_list _ _ _).
  assert (Hnd : NoDup hs) by now apply expired_list_NoDup.
  assert (Hmem : forall h, In h hs ->
                   dict_mem h (Mempool.transactions (self (log_event EvConnect s)))
                   = true).
  { cbn. intros h Hin. now apply expired_list_mem in Hin. }
  split.
  - unfold call. rewrite Hok.
    pose proof (@expire_loop_trace hs (log_event EvConnect s) Hok Hnd Hmem Htbl) as Htr.
    destruct (@expire_loop_returns C hs (log_event EvConnect s) Hok Hnd Hmem Htbl)
      as [Hr _].
    destruct (for_each hs Mempool.expire_step (log_event EvConnect s)) as [s1 [[]|e]];
      cbn in *; [|discriminate].
    rewrite Hok. cbn. rewrite Htr, <- !app_assoc. reflexivity.
  - intros h. unfold hs, expired_list. rewrite in_map_iff. split.
    + intros [[h' tx] [Hh Hin]]. cbn in Hh. subst h'.
      apply filter_In in Hin as [Hin Hexp]. exists tx. split; [assumption|].
      pose proof (Htests _ Hin) as Htest. cbn in Htest, Hexp.
      now rewrite Htest, Hexp.
    + intros [tx [Hin Hexp]]. exists (h, tx). split; [reflexivity|].
      apply filter_In. split; [assumption|]. cbn. unfold expired. now rewrite Hexp.
Qed.

(** X10: [get_transactions] breaks ties by arrival: when [max_count] covers
    the pool, the transactions returned with any one timestamp are the
    transactions of the mapping with that timestamp, in the order in which
    they were inserted. *)
Theorem get_transactions_stable (max_count : Z) (s : Sys Mempool.t) :
  len (Mempool.transactions (self s)) <= max_count ->
  exists txs,
    Mempool.get_transactions max_count s = (s, Return txs)
    /\ forall t, stamped t txs = stamped t (dict_values (Mempool.transactions (self s))).
Proof.
  intros Hcover.
  set (all := sorted_by_timestamp (dict_values (Mempool.transactions (self s)))).
  assert (Hlen : List.length all = List.length (Mempool.transactions (self s))).
  { unfold all. rewrite <- (Permutation_length (sorted_by_timestamp_perm _)).
    unfold dict_values. apply length_map. }
  exists all. split.
  - unfold Mempool.get_transactions, bind, get, ret. cbn. fold all.
    unfold len in Hcover.
    rewrite slice_to_nonneg by lia.
    rewrite firstn_all2; [reflexivity | lia].
  - intros t. apply sorted_by_timestamp_stamped.
Qed.

(** X11: a negative [max_count] does not select nothing: [get_transactions]
    then returns the pool in ascending order of timestamp without its
    [-max_count] last transactions, that is [max(0, size + max_count)] of
    them, and leaves the state unchanged. *)
Theorem get_transactions_negative (max_count : Z) (s : Sys Mempool.t) :
  max_count < 0 ->
  exists txs dropped,
    Mempool.get_transactions max_count s = (s, Return txs)
    /\ txs ++ dropped
       = sorted_by_timestamp (dict_values (Mempool.transactions (self s)))
    /\ len txs = Z.max 0 (len (Mempool.transactions (self s)) + max_count)
    /\ len dropped = Z.min (- max_count) (len (Mempool.transactions (self s))).
Proof.
  intros Hneg.
  set (all := sorted_by_timestamp (dict_values (Mempool.transactions (self s)))).
  assert (Hlen : len all = len (Mempool.transactions (self s))).
  { unfold all, len. rewrite <- (Permutation_length (sorted_by_timestamp_perm _)).
    unfold dict_values. now rewrite length_map. }
  set (k := Z.to_nat (Z.max 0 (len all + max_count))).
  exists (firstn k all), (skipn k all).
  split; [|split; [|split]].
  - unfold Mempool.get_transactions, bind, get, ret. cbn. fold all.
    unfold slice_to. destruct (Z.leb_spec 0 max_count); [lia | reflexivity].
  - apply firstn_skipn.
  - unfold len in *. rewrite length_firstn. unfold k. lia.
  - unfold len in *. rewrite length_skipn. unfold k. lia.
Qed.

(** X12: the constructor of [Mempool] swallows [OperationalError] and no
    other exception: it never raises [OperationalError]; when the store
    answers the connection with [OperationalError] the pool is constructed,
    empty; any other exception raised while loading leaves the
    constructor. *)
Theorem mempool_init_operational_error (w : World) :
  (forall e, snd (Mempool.__init__ w) = Raise e -> e <> OperationalError)
  /\ (fault (trace w) EvConnect = Some OperationalError ->
      Mempool.__init__ w
      = (mkSys (Mempool.mk [] 1000)
               (mkWorld (store w) (trace w ++ [EvConnect]) (clock w)),
         Return tt))
  /\ (forall e, e <> OperationalError ->
      fault (trace w) EvConnect = Some e ->
      snd (Mempool.__init__ w) = Raise e).
Proof.
  unfold Mempool.__init__, Mempool._load_from_db, try_except, with_db, bind,
    call, get, ret, raise.
  cbn. split; [|split].
  - intros e. destruct (fault _ _) as [x|]; cbn.
    + destruct x; cbn; intros H; inversion H; discriminate.
    + destruct (fault _ _) as [x|]; cbn.
      * destruct x; cbn; intros H; inversion H; discriminate.
      * destruct (mempool_tbl (store w)); cbn; [|discriminate].
        destruct (fault _ _) as [x|]; cbn; [|discriminate].
        destruct x; cbn; intros H; inversion H; discriminate.
  - intros Hc. rewrite Hc. reflexivity.
  - intros e Hne Hc. rewrite Hc. cbn. destruct e; cbn; congruence.
Qed.

End Selection.

(** ** Appending blocks *)

Lemma last_cons_default A (x d : A) (l : list A) : last (x :: l) d = last l x.
Proof.
  revert x d. induction l as [|y l IH]; intros x d; [reflexivity|].
  change (last (x :: y :: l) d) with (last (y :: l) d).
  now rewrite !(IH y).
Qed.

Lemma linked_from_app prev rest b :
  linked_from prev rest ->
  index b = index (last rest prev) + 1 ->
  previous_hash b = hash (last rest prev) ->
  linked_from prev (rest ++ [b]).
Proof.
  revert prev. induction rest as [|x rest IH]; intros prev Hl Hi Hp.
  - cbn in *. auto.
  - rewrite last_cons_default in Hi, Hp.
    cbn [linked_from app] in *. destruct Hl as (H1 & H2 & H3).
    repeat split; auto.
Qed.

Lemma linked_app prefix last b :
  linked (prefix ++ [last]) ->
  index b = index last + 1 ->
  previous_hash b = hash last ->
  linked ((prefix ++ [last]) ++ [b]).
Proof.
  intros Hl Hi Hp. destruct prefix as [|x prefix]; cbn in *.
  - auto.
  - apply linked_from_app; [assumption | |];
      rewrite <- (last_cons_default x (Block_new 0 0 [] "" 0)), app_comm_cons, last_last;
      assumption.
Qed.

Lemma nth_error_app_one A (l : list A) (x : A) i y :
  nth_error (l ++ [x]) i = Some y ->
  nth_error l i = Some y \/ (i = List.length l /\ y = x).
Proof.
  intros H. destruct (Nat.lt_ge_cases i (List.length l)) as [Hlt|Hge].
  - left. now rewrite nth_error_app1 in H.
  - right. rewrite nth_error_app2 in H by assumption.
    destruct (i - List.length l)%nat as [|k] eqn:Hk; cbn in H.
    + injection H as <-. split; [lia | reflexivity].
    + now destruct k.
Qed.

Section Appending.
Context {C : Collaborators}.

Lemma call_same_self O (e : event) : keeps same_self (call (O := O) e).
Proof. apply keeps_call. intros s ev. reflexivity. Qed.

(** What [add_block] does to the object: nothing, or, when it returns the
    sealed block, the append of that block. *)
Lemma add_block_outcome txs key s :
  ((forall b, snd (Blockchain.add_block txs key s) <> Return (Some b))
   /\ self (fst (Blockchain.add_block txs key s)) = self s)
  \/ exists last_block,
       txs <> []
       /\ Blockchain.get_last_block (self s) = Some last_block
       /\ snd (Blockchain.add_block txs key s)
          = Return (Some (sealed_block last_block (clock (world s)) txs
                            (Blockchain.difficulty (self s)) key))
       /\ self (fst (Blockchain.add_block txs key s))
          = Blockchain.set_chain
              (fun c => c ++ [sealed_block last_block (clock (world s)) txs
                                (Blockchain.difficulty (self s)) key])
              (self s).
Proof.
  destruct txs as [|tx txs].
  { left. split; [discriminate | reflexivity]. }
  destruct (Blockchain.get_last_block (self s)) as [last_block|] eqn:Hlast.
  2:{ left. unfold Blockchain.add_block. cbn [is_empty]. unfold bind, get.
      rewrite Hlast. split; [discriminate | reflexivity]. }
  assert (Hne : tx :: txs <> []) by discriminate.
  rewrite (add_block_eq key s Hne Hlast). cbn zeta.
  unfold call. destruct (fault _ _); cbn.
  { left. split; [discriminate | reflexivity]. }
  destruct (fault _ _); cbn.
  { left. split; [discriminate | reflexivity]. }
  match goal with |- context [Blockchain.persist_block ?nb ?l ?s2] =>
    pose proof (persist_block_same_self nb l s2) as Hself;
    destruct (Blockchain.persist_block nb l s2) as [s3 [[]|x]] end;
    cbn in *; unfold same_self in Hself.
  - right. exists last_block. repeat split; auto. now rewrite Hself.
  - left. split; [discriminate | assumption].
Qed.

(** X13: the block [add_block] returns carries the transactions of the
    batch, the difficulty of the chain manager, the clock reading cut to
    whole seconds as timestamp, the PEM of the key's public key as
    validator and the key's signature of its hash; the difficulty of the
    manager is the same after the call, whatever its outcome. *)
Theorem add_block_seals (txs : list Transaction) (key : PrivateKey)
    (s : Sys Blockchain.t) :
  Blockchain.difficulty (self (fst (Blockchain.add_block txs key s)))
  = Blockchain.difficulty (self s)
  /\ forall b,
       snd (Blockchain.add_block txs key s) = Return (Some b) ->
       b_transactions b = txs
       /\ b_difficulty b = Blockchain.difficulty (self s)
       /\ b_timestamp b = int_of (clock (world s))
       /\ validator b = Some (public_pem key)
       /\ block_signature b = Some (sign_hash key (hash b)).
Proof.
  destruct (add_block_outcome txs key s)
    as [[Hnot Hself] | (last_block & _ & _ & Hr & Hself)]; rewrite Hself.
  - split; [reflexivity|]. intros b Hb. now apply Hnot in Hb.
  - split; [reflexivity|]. intros b Hb. rewrite Hr in Hb.
    injection Hb as <-. repeat split.
Qed.

(** X14: proof-of-work and signing are outside the [try] of [add_block]:
    when one of them raises, the exception leaves [add_block], the chain
    and the store are as they were, and no save has been asked for. *)
Theorem add_block_mining_failure (txs : list Transaction) (key : PrivateKey)
    (s : Sys Blockchain.t) (prefix : list Block) (last_block : Block) (e : exn) :
  txs <> [] ->
  Blockchain.chain (self s) = prefix ++ [last_block] ->
  let candidate :=
    Blockchain.candidate_block last_block (clock (world s)) txs
      (Blockchain.difficulty (self s)) in
  let unsigned := set_validator (public_pem key) (proof_of_work candidate) in
  (fault (trace (world s)) (EvProofOfWork candidate) = Some e ->
   Blockchain.add_block txs key s
   = (log_event (EvProofOfWork candidate) s, Raise e))
  /\ (fault (trace (world s)) (EvProofOfWork candidate) = None ->
      fault (trace (world s) ++ [EvProofOfWork candidate]) (EvSignBlock unsigned)
      = Some e ->
      Blockchain.add_block txs key s
      = (log_event (EvSignBlock unsigned) (log_event (EvProofOfWork candidate) s),
         Raise e)).
Proof.
  intros Hne Hchain candidate unsigned.
  assert (Hlast : Blockchain.get_last_block (self s) = Some last_block).
  { destruct (self s) as [d c]. cbn in Hchain. subst c. apply get_last_block_app. }
  rewrite (add_block_eq key s Hne Hlast). cbn zeta.
  fold candidate. fold unsigned. unfold call. split.
  - intros Hpow. now rewrite Hpow.
  - intros Hpow Hsign. rewrite Hpow. cbn. now rewrite Hsign.
Qed.

(** X15: [add_block] keeps the chain linked: if every block of the chain
    has the index after its predecessor's and its predecessor's hash as
    [previous_hash], the same holds of the chain after the call, whatever
    its outcome. *)
Theorem add_block_keeps_linked (txs : list Transaction) (key : PrivateKey)
    (s : Sys Blockchain.t) :
  linked (Blockchain.chain (self s)) ->
  linked (Blockchain.chain (self (fst (Blockchain.add_block txs key s)))).
Proof.
  intros Hl.
  destruct (add_block_outcome txs key s)
    as [[_ Hself] | (last_block & _ & Hlast & _ & Hself)]; rewrite Hself;
    [assumption|].
  cbn. 
  assert (Hsplit : exists prefix, Blockchain.chain (self s) = prefix ++ [last_block]).
  { unfold Blockchain.get_last_block in Hlast.
    destruct (Blockchain.chain (self s)) as [|x l] eqn:Hc; cbn [is_empty] in Hlast;
      [discriminate|].
    exists (removelast (x :: l)).
    assert (Hb : last_block = last (x :: l) (Block_new 0 0 [] "" 0)) by congruence.
    rewrite Hb. apply app_removelast_last. discriminate. }
  destruct Hsplit as [prefix Hsplit]. rewrite Hsplit in *.
  apply linked_app; [assumption | reflexivity | reflexivity].
Qed.

(** X16: after [add_block] has returned a block, [get_last_block] returns
    that block; after any other outcome it returns what it returned
    before. *)
Theorem add_block_then_last (txs : list Transaction) (key : PrivateKey)
    (s : Sys Blockchain.t) :
  (forall b,
      snd (Blockchain.add_block txs key s) = Return (Some b) ->
      Blockchain.get_last_block (self (fst (Blockchain.add_block txs key s)))
      = Some b)
  /\ ((forall b, snd (Blockchain.add_block txs key s) <> Return (Some b)) ->
      Blockchain.get_last_block (self (fst (Blockchain.add_block txs key s)))
      = Blockchain.get_last_block (self s)).
Proof.
  destruct (add_block_outcome txs key s)
    as [[Hnot Hself] | (last_block & _ & _ & Hr & Hself)]; rewrite Hself.
  - split; [|reflexivity]. intros b Hb. now apply Hnot in Hb.
  - split.
    + intros b Hb. rewrite Hr in Hb. injection Hb as <-.
      destruct (self s) as [d c]. apply get_last_block_app.
    + intros Hnot. exfalso. eapply Hnot. exact Hr.
Qed.

End Appending.

(** ** The chain and its rows in the store *)

Lemma find_app_skip A (p : A -> bool) (l1 l2 : list A) :
  (forall x, In x l1 -> p x = false) -> find p (l1 ++ l2) = find p l2.
Proof.
  induction l1 as [|x l1 IH]; intros H; cbn; auto.
  rewrite (H x (or_introl eq_refl)). apply IH. intros y Hy. apply H. now right.
Qed.

(** Rows that mirror a chain are read back as that chain. *)
Lemma read_blocks_numbered (todo : list (Z * Block)) : forall done acc,
  (forall i b, nth_error (map snd (done ++ todo)) i = Some b -> index b = Z.of_nat i) ->
  read_blocks (done ++ todo) (List.length todo) (Z.of_nat (List.length done)) acc
  = Some (acc ++ map snd todo).
Proof.
  induction todo as [|r todo IH]; intros done acc Hnum; cbn [read_blocks List.length map].
  - now rewrite app_nil_r.
  - rewrite find_app_skip.
    + cbn [find].
      assert (Hr : index (snd r) = Z.of_nat (List.length done)).
      { apply Hnum. rewrite map_app, nth_error_app2; rewrite length_map; [|lia].
        now rewrite Nat.sub_diag. }
      rewrite Hr, Z.eqb_refl. cbn [option_map].
      replace (Z.of_nat (List.length done) + 1)
        with (Z.of_nat (List.length (done ++ [r])))
        by (rewrite length_app; cbn; lia).
      replace (done ++ r :: todo) with ((done ++ [r]) ++ todo)
        by now rewrite <- app_assoc.
      rewrite IH.
      * now rewrite <- app_assoc.
      * intros i b Hb. apply Hnum. now rewrite <- app_assoc in Hb.
    + intros x Hx. apply Z.eqb_neq.
      apply In_nth_error in Hx as [i Hi].
      assert (Hlt : (i < List.length done)%nat).
      { apply nth_error_Some. congruence. }
      rewrite (Hnum i (snd x)); [lia|].
      rewrite map_app, nth_error_app1 by (now rewrite length_map).
      now rewrite nth_error_map, Hi.
Qed.

Lemma read_blocks_mirror rows chain :
  mirrors rows chain ->
  read_blocks rows (Z.to_nat (len rows)) 0 [] = Some chain.
Proof.
  intros [Hmap Hnum]. unfold len. rewrite Nat2Z.id.
  rewrite <- Hmap in *.
  apply (read_blocks_numbered rows [] []). exact Hnum.
Qed.

Section ChainStore.
Context {C : Collaborators}.

Lemma reset_same_self : keeps same_self Blockchain._reset_blockchain.
Proof.
  unfold Blockchain._reset_blockchain, Repo.init_db.
  keeps_go same_self_side fail.
Qed.

(** When both saves return, the block row has been added after the rows
    that were there. *)
Lemma persist_block_rows b txs s rows :
  blocks_tbl (store (world s)) = Some rows ->
  snd (Blockchain.persist_block b txs s) = Return tt ->
  blocks_tbl (store (world (fst (Blockchain.persist_block b txs s))))
  = Some (rows ++ [(len rows + 1, b)]).
Proof.
  intros Hrows.
  unfold Blockchain.persist_block, Repo.save_block, Repo.save_transactions_bulk,
    bind, call, get, modify, ret, raise.
  cbn. destruct (fault _ _); cbn; [discriminate|].
  rewrite Hrows. cbn.
  destruct (fault _ _); cbn; [discriminate|].
  destruct (transactions_tbl (store (world s))) as [txrows|]; cbn; [|discriminate].
  reflexivity.
Qed.

(** X17: the rows of the [blocks] table mirror the chain, block [i] of the
    chain at index [i], once the [except] block of [__init__] has returned,
    and [add_block] keeps it so: when it returns a block, the row of that
    block has been added after the rows that were there. *)
Theorem store_mirrors_chain (s : Sys Blockchain.t) :
  (forall s',
      Blockchain.init_except s = (s', Return tt) ->
      exists rows,
        blocks_tbl (store (world s')) = Some rows
        /\ mirrors rows (Blockchain.chain (self s')))
  /\ (forall txs key rows b,
        blocks_tbl (store (world s)) = Some rows ->
        mirrors rows (Blockchain.chain (self s)) ->
        snd (Blockchain.add_block txs key s) = Return (Some b) ->
        exists block_id,
          blocks_tbl (store (world (fst (Blockchain.add_block txs key s))))
          = Some (rows ++ [(block_id, b)])
          /\ mirrors (rows ++ [(block_id, b)])
               (Blockchain.chain (self (fst (Blockchain.add_block txs key s))))).
Proof.
  split.
  - intros s' Hrun. apply init_except_result in Hrun as [Hchain Hstore].
    exists [(1, genesis_block s)]. rewrite Hstore, Hchain.
    split; [reflexivity|]. split; [reflexivity|].
    intros [|[|i]] b Hb; cbn in Hb; try discriminate.
    injection Hb as <-. reflexivity.
  - intros txs key rows b Hrows [Hmap Hnum] Hb.
    destruct (add_block_outcome txs key s)
      as [[Hnot _] | (last_block & Hne & Hlast & Hr & Hself)];
      [now apply Hnot in Hb|].
    rewrite Hr in Hb. injection Hb as <-.
    set (nb := sealed_block last_block (clock (world s)) txs
                 (Blockchain.difficulty (self s)) key) in *.
    exists (len rows + 1). split.
    + revert Hr. rewrite (add_block_eq key s Hne Hlast). cbn zeta.
      unfold call. destruct (fault _ _); cbn; [discriminate|].
      destruct (fault _ _); cbn; [discriminate|].
      match goal with |- context [Blockchain.persist_block ?b0 txs ?s2] =>
        pose proof (@persist_block_rows b0 txs s2 rows Hrows) as Hp;
        destruct (Blockchain.persist_block b0 txs s2) as [s3 [[]|x]] end;
        cbn in *; [|discriminate].
      intros _. now apply Hp.
    + rewrite Hself. cbn. split.
      * rewrite map_app, Hmap. reflexivity.
      * assert (Hsplit : exists prefix,
                   Blockchain.chain (self s) = prefix ++ [last_block]).
        { unfold Blockchain.get_last_block in Hlast.
          destruct (Blockchain.chain (self s)) as [|x l] eqn:Hc;
            cbn [is_empty] in Hlast; [discriminate|].
          exists (removelast (x :: l)).
          assert (Hl : last_block = last (x :: l) (Block_new 0 0 [] "" 0))
            by congruence.
          rewrite Hl. apply app_removelast_last. discriminate. }
        destruct Hsplit as [prefix Hsplit].
        intros i y Hy. apply nth_error_app_one in Hy as [Hy | [Hi Hy]].
        -- now apply Hnum.
        -- subst i y. rewrite Hsplit, length_app. cbn [List.length].
           assert (Hidx : index last_block = Z.of_nat (List.length prefix)).
           { apply Hnum. rewrite Hsplit, nth_error_app2, Nat.sub_diag by lia.
             reflexivity. }
           cbn. rewrite Hidx. lia.
Qed.

(** X18: what has been saved is read back: when no call raises and the
    rows of the [blocks] table mirror a non-empty chain that
    [is_chain_valid] accepts, [load_chain] returns that chain. *)
Theorem load_chain_reloads (s : Sys Blockchain.t) (rows : list (Z * Block))
    (chain : list Block) :
  (forall tr e, fault tr e = None) ->
  blocks_tbl (store (world s)) = Some rows ->
  mirrors rows chain ->
  chain <> [] ->
  is_chain_valid chain = true ->
  snd (Blockchain.load_chain s) = Return chain.
Proof.
  intros Hok Hrows Hm Hne Hv.
  rewrite (load_chain_reads s Hok Hrows), (read_blocks_mirror Hm).
  destruct chain; [congruence|]. cbn [is_empty]. now rewrite Hv.
Qed.

(** X19: [load_chain] only reads: the object and the store are the same
    after it, whatever its outcome, and what it returns is empty or a
    chain that [is_chain_valid] accepts.  When no call raises, an empty
    [blocks] table is answered by the empty list after the count alone,
    and one missing block among 0 .. count-1 makes the whole load
    empty. *)
Theorem load_chain_read_only (s : Sys Blockchain.t) :
  self (fst (Blockchain.load_chain s)) = self s
  /\ store (world (fst (Blockchain.load_chain s))) = store (world s)
  /\ (forall loaded,
        snd (Blockchain.load_chain s) = Return loaded ->
        loaded = [] \/ (loaded <> [] /\ is_chain_valid loaded = true))
  /\ ((forall tr e, fault tr e = None) ->
      (blocks_tbl (store (world s)) = Some [] ->
       Blockchain.load_chain s = (log_event EvGetBlockCount s, Return []))
      /\ (forall rows,
            blocks_tbl (store (world s)) = Some rows ->
            read_blocks rows (Z.to_nat (len rows)) 0 [] = None ->
            snd (Blockchain.load_chain s) = Return [])).
Proof.
  destruct (load_chain_same_but_trace s) as (Hs & Hst & _).
  split; [assumption|]. split; [assumption|]. split; [apply load_chain_result|].
  intros Hok. split.
  - intros Hrows.
    unfold Blockchain.load_chain, Repo.get_block_count, bind, call, get, ret, raise.
    cbn. rewrite Hok. cbn. rewrite Hrows. reflexivity.
  - intros rows Hrows Hgap. rewrite (load_chain_reads s Hok Hrows), Hgap. reflexivity.
Qed.

(** X20: [_reset_blockchain] empties the store, not the manager: the
    in-memory chain and the difficulty are the same after it, whatever its
    outcome, and when it returns the three tables are there and empty. *)
Theorem reset_blockchain_keeps_chain (s : Sys Blockchain.t) :
  self (fst (Blockchain._reset_blockchain s)) = self s
  /\ (snd (Blockchain._reset_blockchain s) = Return tt ->
      store (world (fst (Blockchain._reset_blockchain s)))
      = mkStore (Some []) (Some []) (Some [])).
Proof.
  split; [apply reset_same_self|].
  pose proof (@reset_result C s) as H.
  destruct (Blockchain._reset_blockchain s) as [s' [[]|e]]; cbn; [|discriminate].
  intros _. now apply H.
Qed.

(** X21: [_initialize_new_chain] either returns with the genesis block as
    the whole chain, or raises [RuntimeError], whatever the exception that
    stopped the creation of the genesis block, with the chain as it was;
    the difficulty is the same in both cases. *)
Theorem initialize_new_chain_outcome (s : Sys Blockchain.t) :
  Blockchain.difficulty (self (fst (Blockchain._initialize_new_chain s)))
  = Blockchain.difficulty (self s)
  /\ ((snd (Blockchain._initialize_new_chain s) = Return tt
       /\ Blockchain.chain (self (fst (Blockchain._initialize_new_chain s)))
          = [genesis_block s])
      \/ (snd (Blockchain._initialize_new_chain s) = Raise RuntimeError
          /\ Blockchain.chain (self (fst (Blockchain._initialize_new_chain s)))
             = Blockchain.chain (self s))).
Proof.
  split; [apply initialize_same_params | apply initialize_result].
Qed.

(** X22: the constructor of [Blockchain] raises only when the [try] block
    has raised and the recovery has failed too, and then the exception is
    that of the failed reset or [RuntimeError]; when the [try] block
    returns, so does the constructor, in the state the [try] block left. *)
Theorem init_raises_after_failed_recovery (d : Z) (w : World) :
  let start := mkSys (Blockchain.mk d []) w in
  (snd (Blockchain.init_try start) = Return tt ->
   Blockchain.__init__ d w = (fst (Blockchain.init_try start), Return tt))
  /\ (forall e,
        snd (Blockchain.__init__ d w) = Raise e ->
        (exists e0, snd (Blockchain.init_try start) = Raise e0)
        /\ (e = RuntimeError
            \/ snd (Blockchain._reset_blockchain (fst (Blockchain.init_try start)))
               = Raise e)).
Proof.
  intros start. unfold Blockchain.__init__, try_except. fold start.
  destruct (Blockchain.init_try start) as [s1 [[]|e0]]; cbn.
  - split; [reflexivity | discriminate].
  - split; [discriminate|]. intros e H. split; [eauto|].
    revert H. unfold Blockchain.init_except, bind.
    destruct (Blockchain._reset_blockchain s1) as [s2 [[]|e1]]; cbn.
    + destruct (initialize_result s2) as [[Hr _] | [Hr _]]; rewrite Hr;
        intros H; inversion H. now left.
    + intros H. inversion H. now right.
Qed.

End ChainStore.

(** ** The further properties on concrete inputs *)

Lemma add_transaction_rejects_untouched_witness :
  Mempool.add_transaction (C := Testbed.reliable) Testbed.tx_b Testbed.pool3_sys
  = (Testbed.pool3_sys, Return false).
Proof.
  apply (add_transaction_rejects_untouched (C := Testbed.reliable)).
  right. right. cbn. auto.
Defined.

Lemma add_transaction_broadcast_failure_witness :
  Mempool.add_transaction (C := Testbed.failing Faults.is_broadcast) Testbed.tx_a
    Testbed.empty_pool_sys
  = (log_event (EvBroadcast Testbed.tx_a) Testbed.empty_pool_sys, Return false).
Proof.
  apply (add_transaction_broadcast_failure (C := Testbed.failing Faults.is_broadcast)
           Testbed.tx_a Testbed.empty_pool_sys (e := OtherError "disk I/O error")).
  - discriminate.
  - reflexivity.
  - cbn. tauto.
  - cbn. lia.
  - reflexivity.
Defined.

Lemma add_transaction_twice_witness :
  Mempool.add_transaction (C := Testbed.reliable) Testbed.tx_a
    (fst (Mempool.add_transaction (C := Testbed.reliable) Testbed.tx_a
            Testbed.empty_pool_sys))
  = (fst (Mempool.add_transaction (C := Testbed.reliable) Testbed.tx_a
            Testbed.empty_pool_sys),
     Return false).
Proof.
  apply (add_transaction_twice (C := Testbed.reliable)). reflexivity.
Defined.

Lemma remove_transactions_exact_witness :
  Mempool.transactions
    (self (fst (Mempool.remove_transactions (C := Testbed.reliable)
                  [tx_hash Testbed.tx_b; "unknown"] Testbed.pool3_sys)))
  = [(tx_hash Testbed.tx_a, Testbed.tx_a); (tx_hash Testbed.tx_c, Testbed.tx_c)].
Proof.
  destruct (remove_transactions_exact (C := Testbed.reliable)
              [tx_hash Testbed.tx_b; "unknown"] Testbed.pool3_sys) as (_ & _ & H).
  destruct (H eq_refl) as [Hexact _]. rewrite Hexact. reflexivity.
Defined.

Lemma remove_transactions_deletes_each_witness :
  trace (world (fst (Mempool.remove_transactions (C := Testbed.reliable)
                       [tx_hash Testbed.tx_b; "unknown"] Testbed.pool3_sys)))
  = [EvConnect; EvDeleteMempool (tx_hash Testbed.tx_b); EvDeleteMempool "unknown";
     EvCommit].
Proof.
  destruct (remove_transactions_deletes_each (C := Testbed.reliable)
              [tx_hash Testbed.tx_b; "unknown"] Testbed.pool3_sys
              (fun _ _ => eq_refl)) as [_ Htr].
  - discriminate.
  - rewrite Htr. reflexivity.
Defined.

Lemma add_then_remove_restores_witness :
  Mempool.transactions
    (self (fst (Mempool.remove_transactions (C := Testbed.reliable)
                  [tx_hash Cases.tx_d]
                  (fst (Mempool.add_transaction (C := Testbed.reliable) Cases.tx_d
                          Testbed.pool3_sys)))))
  = Mempool.transactions Testbed.pool3.
Proof.
  apply (add_then_remove_restores (C := Testbed.reliable) Cases.tx_d Testbed.pool3_sys);
    reflexivity.
Defined.

Lemma removal_needs_connection_witness :
  Mempool.remove_transactions (C := Faults.locked) [tx_hash Testbed.tx_a]
    Testbed.pool3_sys
  = (log_event EvConnect Testbed.pool3_sys, Raise OperationalError)
  /\ Mempool.clear_expired (C := Faults.locked) 3600 Testbed.pool3_sys
     = (log_event EvConnect Testbed.pool3_sys, Raise OperationalError).
Proof.
  pose proof (removal_needs_connection (C := Faults.locked) [tx_hash Testbed.tx_a]
                3600 Testbed.pool3_sys eq_refl) as [Hremove Hclear].
  split; [exact Hremove|].
  rewrite Hclear. vm_compute. reflexivity.
Defined.

Lemma pool3_expired_keys :
  Mempool.expired_keys (time_time (world Testbed.pool3_sys)) 3600
    (Mempool.transactions (self Testbed.pool3_sys))
  = Return [tx_hash Testbed.tx_b].
Proof. vm_compute. reflexivity. Defined.

Lemma pool_old_expired_keys :
  Mempool.expired_keys (time_time (world Testbed.pool_old_sys)) (2 ^ 53)
    (Mempool.transactions (self Testbed.pool_old_sys))
  = Return [].
Proof. vm_compute. reflexivity. Defined.

Lemma clear_expired_deletes_each_witness :
  trace (world (fst (Mempool.clear_expired (C := Testbed.reliable) 3600
                       Testbed.pool3_sys)))
  = [EvConnect; EvDeleteMempool (tx_hash Testbed.tx_b); EvCommit]
  /\ trace (world (fst (Mempool.clear_expired (C := Testbed.reliable) (2 ^ 53)
                          Testbed.pool_old_sys)))
     = [EvConnect; EvCommit].
Proof.
  split.
  - pose proof (clear_expired_deletes_each (C := Testbed.reliable) 3600
                  Testbed.pool3_sys (fun _ _ => eq_refl) pool3_wf
                  ltac:(discriminate)) as Hrun.
    rewrite pool3_expired_keys in Hrun. exact (proj1 Hrun).
  - assert (Hwf : dict_wf (Mempool.transactions (self Testbed.pool_old_sys))).
    { repeat constructor. intros []. }
    pose proof (clear_expired_deletes_each (C := Testbed.reliable) (2 ^ 53)
                  Testbed.pool_old_sys (fun _ _ => eq_refl) Hwf
                  ltac:(discriminate)) as Hrun.
    rewrite pool_old_expired_keys in Hrun. exact (proj1 Hrun).
Defined.

Lemma get_transactions_stable_witness :
  snd (Mempool.get_transactions 10 Cases.pool_ties)
  = Return [Testbed.tx_b; Testbed.tx_a; Cases.tx_d; Testbed.tx_c]
  /\ exists txs,
       Mempool.get_transactions 10 Cases.pool_ties = (Cases.pool_ties, Return txs)
       /\ forall t,
            stamped t txs
            = stamped t (dict_values (Mempool.transactions (self Cases.pool_ties))).
Proof.
  split; [reflexivity|].
  apply (get_transactions_stable Cases.pool_ties). cbn. lia.
Defined.

Lemma get_transactions_negative_witness :
  exists txs dropped,
    Mempool.get_transactions (-3) Cases.pool_ties = (Cases.pool_ties, Return txs)
    /\ txs ++ dropped
       = sorted_by_timestamp (dict_values (Mempool.transactions (self Cases.pool_ties)))
    /\ len txs = Z.max 0 (len (Mempool.transactions (self Cases.pool_ties)) + -3)
    /\ len dropped = Z.min (- -3) (len (Mempool.transactions (self Cases.pool_ties))).
Proof.
  apply (get_transactions_negative Cases.pool_ties). lia.
Defined.

Lemma mempool_init_operational_error_witness :
  Mempool.__init__ (C := Faults.locked) (Testbed.world_of Testbed.store_pending 0)
  = (mkSys (Mempool.mk [] 1000) (mkWorld Testbed.store_pending [EvConnect] 0),
     Return tt)
  /\ snd (Mempool.__init__ (C := Testbed.failing Faults.is_connect)
            (Testbed.world_of Testbed.store_pending 0))
     = Raise (OtherError "disk I/O error").
Proof.
  split.
  - apply (proj1 (proj2 (mempool_init_operational_error (C := Faults.locked)
                           (Testbed.world_of Testbed.store_pending 0)))).
    reflexivity.
  - apply (proj2 (proj2 (mempool_init_operational_error
                           (C := Testbed.failing Faults.is_connect)
                           (Testbed.world_of Testbed.store_pending 0)))).
    + discriminate.
    + reflexivity.
Defined.

Lemma add_block_seals_witness :
  validator (sealed_block (C := Testbed.reliable) (Testbed.genesis_of 1) 0
               [Testbed.tx_a] 1 Testbed.key1)
  = Some "pub(k1)"
  /\ b_difficulty (sealed_block (C := Testbed.reliable) (Testbed.genesis_of 1) 0
                     [Testbed.tx_a] 1 Testbed.key1)
     = 1.
Proof.
  destruct (add_block_seals (C := Testbed.reliable) [Testbed.tx_a] Testbed.key1
              Cases.synced_node) as [_ H].
  destruct (H (sealed_block (C := Testbed.reliable) (Testbed.genesis_of 1) 0
                 [Testbed.tx_a] 1 Testbed.key1) eq_refl)
    as (_ & Hd & _ & Hv & _).
  split; [exact Hv | exact Hd].
Defined.

Lemma add_block_mining_failure_witness :
  Blockchain.add_block (C := Testbed.failing Faults.is_proof_of_work)
    [Testbed.tx_a] Testbed.key1 Cases.synced_node
  = (log_event
       (EvProofOfWork (Blockchain.candidate_block (Testbed.genesis_of 1) 0
                         [Testbed.tx_a] 1))
       Cases.synced_node,
     Raise (OtherError "disk I/O error")).
Proof.
  apply (proj1 (add_block_mining_failure
                  (C := Testbed.failing Faults.is_proof_of_work)
                  (txs := [Testbed.tx_a]) Testbed.key1 Cases.synced_node
                  [] (Testbed.genesis_of 1) (OtherError "disk I/O error")
                  ltac:(discriminate) eq_refl)).
  reflexivity.
Defined.

Lemma add_block_keeps_linked_witness :
  linked (Blockchain.chain
            (self (fst (Blockchain.add_block (C := Testbed.reliable)
                          [Testbed.tx_a] Testbed.key1 Cases.synced_node)))).
Proof.
  apply (add_block_keeps_linked (C := Testbed.reliable)). exact I.
Defined.

Lemma add_block_then_last_witness :
  Blockchain.get_last_block
    (self (fst (Blockchain.add_block (C := Testbed.reliable)
                  [Testbed.tx_a] Testbed.key1 Cases.synced_node)))
  = Some (sealed_block (C := Testbed.reliable) (Testbed.genesis_of 1) 0
            [Testbed.tx_a] 1 Testbed.key1).
Proof.
  apply (proj1 (add_block_then_last (C := Testbed.reliable) [Testbed.tx_a]
                  Testbed.key1 Cases.synced_node)).
  reflexivity.
Defined.

Lemma synced_node_mirrors :
  mirrors [(1, Testbed.genesis_of 1)] (Blockchain.chain (self Cases.synced_node)).
Proof.
  split; [reflexivity|].
  intros [|[|i]] b Hb; cbn in Hb; try discriminate.
  injection Hb as <-. reflexivity.
Defined.

Lemma store_mirrors_chain_witness :
  exists block_id,
    blocks_tbl
      (store (world (fst (Blockchain.add_block (C := Testbed.reliable)
                            [Testbed.tx_a] Testbed.key1 Cases.synced_node))))
    = Some ([(1, Testbed.genesis_of 1)]
            ++ [(block_id,
                 sealed_block (C := Testbed.reliable) (Testbed.genesis_of 1) 0
                   [Testbed.tx_a] 1 Testbed.key1)])
    /\ mirrors
         ([(1, Testbed.genesis_of 1)]
          ++ [(block_id,
               sealed_block (C := Testbed.reliable) (Testbed.genesis_of 1) 0
                 [Testbed.tx_a] 1 Testbed.key1)])
         (Blockchain.chain
            (self (fst (Blockchain.add_block (C := Testbed.reliable)
                          [Testbed.tx_a] Testbed.key1 Cases.synced_node)))).
Proof.
  apply (proj2 (store_mirrors_chain (C := Testbed.reliable) Cases.synced_node)
           [Testbed.tx_a] Testbed.key1 [(1, Testbed.genesis_of 1)]).
  - reflexivity.
  - exact synced_node_mirrors.
  - reflexivity.
Defined.

Lemma load_chain_reloads_witness :
  snd (Blockchain.load_chain (C := Testbed.reliable) Cases.cold_node)
  = Return [Testbed.genesis_of 1].
Proof.
  apply (load_chain_reloads (C := Testbed.reliable) Cases.cold_node
           (rows := [(1, Testbed.genesis_of 1)]) (fun _ _ => eq_refl) eq_refl
           synced_node_mirrors).
  - discriminate.
  - reflexivity.
Defined.

Lemma load_chain_read_only_witness :
  snd (Blockchain.load_chain (C := Testbed.reliable)
         (mkSys (Blockchain.mk 4 []) (Testbed.world_of Testbed.store_stale 0)))
  = Return []
  /\ Blockchain.load_chain (C := Testbed.reliable)
       (mkSys (Blockchain.mk 4 []) (Testbed.world_of Testbed.empty_store 0))
     = (log_event EvGetBlockCount
          (mkSys (Blockchain.mk 4 []) (Testbed.world_of Testbed.empty_store 0)),
        Return []).
Proof.
  split.
  - destruct (load_chain_read_only (C := Testbed.reliable)
                (mkSys (Blockchain.mk 4 []) (Testbed.world_of Testbed.store_stale 0)))
      as (_ & _ & _ & H).
    apply (proj2 (H (fun _ _ => eq_refl)) [(1, Testbed.stray_block)]); reflexivity.
  - destruct (load_chain_read_only (C := Testbed.reliable)
                (mkSys (Blockchain.mk 4 []) (Testbed.world_of Testbed.empty_store 0)))
      as (_ & _ & _ & H).
    apply (proj1 (H (fun _ _ => eq_refl))). reflexivity.
Defined.

Lemma reset_blockchain_keeps_chain_witness :
  self (fst (Blockchain._reset_blockchain (C := Testbed.reliable) Cases.synced_node))
  = self Cases.synced_node
  /\ store (world (fst (Blockchain._reset_blockchain (C := Testbed.reliable)
                          Cases.synced_node)))
     = mkStore (Some []) (Some []) (Some []).
Proof.
  destruct (reset_blockchain_keeps_chain (C := Testbed.reliable) Cases.synced_node)
    as [Hself Hstore].
  split; [exact Hself | apply Hstore; reflexivity].
Defined.

Lemma init_raises_after_failed_recovery_witness :
  snd (Blockchain.__init__ (C := Faults.dead_store) 4
         (Testbed.world_of Testbed.store_stale 0))
  = Raise (OtherError "unable to open database file")
  /\ (exists e0,
        snd (Blockchain.init_try (C := Faults.dead_store)
               (mkSys (Blockchain.mk 4 []) (Testbed.world_of Testbed.store_stale 0)))
        = Raise e0).
Proof.
  split; [reflexivity|].
  apply (proj2 (init_raises_after_failed_recovery (C := Faults.dead_store) 4
                  (Testbed.world_of Testbed.store_stale 0))
           (OtherError "unable to open database file")).
  reflexivity.
Defined.
